(** * youtube_dlp_gui: a shallow embedding of the download window

    The program (youtube_dlp_gui.cpp) is one Qt widget class,
    [YouTubeDLPWindow], whose slots build a yt-dlp command line, probe the
    URL, supervise one child process and turn its output into a progress
    log.  Each slot is embedded as a computation on the window's members
    and on the trace of what it does outside the window; the answers of
    the user and of the programs it runs are inputs.  What the toolkit does
    for the slots (strings, regular expressions, the text view, JSON
    values) is modelled from the toolkit's documentation, in modules named
    after the Qt classes; its URL and JSON parsers are parameters. *)

From Stdlib Require Import String Ascii List ZArith Lia Bool DecimalString SpecFloat.
Import ListNotations.
Local Open Scope string_scope.
Local Open Scope list_scope.

(** ** QString

    A [QString] is a sequence of characters; the model keeps the
    characters of the Latin-1 range, as [ascii]. *)

Definition QString := string.

Module QStr.

Definition isEmpty (s : QString) : bool :=
  match s with
  | EmptyString => true
  | String _ _ => false
  end.

(** [QChar::isSpace] in the Latin-1 range: tab to carriage return, space,
    next-line and the no-break space. *)
Definition isSpace (c : ascii) : bool :=
  let n := N_of_ascii c in
  ((9 <=? n) && (n <=? 13) || (n =? 32) || (n =? 133) || (n =? 160))%N.

(** [QChar::isDigit] restricted to what [\d] matches without the Unicode
    option: the ten ASCII digits. *)
Definition isDigit (c : ascii) : bool :=
  let n := N_of_ascii c in ((48 <=? n) && (n <=? 57))%N.

Definition digitValue (c : ascii) : option nat :=
  if isDigit c then Some (N.to_nat (N_of_ascii c) - 48) else None.

Fixpoint dropLeadingSpaces (s : QString) : QString :=
  match s with
  | EmptyString => EmptyString
  | String c s' => if isSpace c then dropLeadingSpaces s' else s
  end.

Fixpoint dropTrailingSpaces (s : QString) : QString :=
  match s with
  | EmptyString => EmptyString
  | String c s' =>
      let r := dropTrailingSpaces s' in
      if isSpace c && isEmpty r then EmptyString else String c r
  end.

(** [QString::trimmed]: whitespace removed from both ends. *)
Definition trimmed (s : QString) : QString :=
  dropTrailingSpaces (dropLeadingSpaces s).

(** The fields of [s] between occurrences of the character [sep], empty
    fields kept; the list is never empty. *)
Fixpoint fields (sep : ascii) (s : QString) : list QString :=
  match s with
  | EmptyString => [EmptyString]
  | String c s' =>
      if Ascii.eqb c sep then EmptyString :: fields sep s'
      else match fields sep s' with
           | f :: fs => String c f :: fs
           | [] => [String c EmptyString]
           end
  end.

(** [QString::split(QChar, Qt::SkipEmptyParts)]. *)
Definition splitSkipEmpty (sep : ascii) (s : QString) : list QString :=
  filter (fun f => negb (isEmpty f)) (fields sep s).

(** [QString::split(const QString &)] for a separator that is not empty,
    empty fields kept.  [skip] counts the characters of a separator
    occurrence that are still to be passed over. *)
Fixpoint splitOn (sep : QString) (skip : nat) (s : QString) : list QString :=
  match s with
  | EmptyString => [EmptyString]
  | String c s' =>
      match skip with
      | S k => splitOn sep k s'
      | O =>
          if prefix sep s
          then EmptyString :: splitOn sep (String.length sep - 1) s'
          else match splitOn sep 0 s' with
               | f :: fs => String c f :: fs
               | [] => [String c EmptyString]
               end
      end
  end.

Definition split (sep : QString) (s : QString) : list QString :=
  splitOn sep 0 s.

(** [QList::first] on the result of a split, which is never empty. *)
Definition first (l : list QString) : QString := hd EmptyString l.

(** [QString::section(sep, start, end)] with the default flags and
    non-negative field numbers: the fields [start..end], joined by
    [sep]. *)
Definition section (sep : QString) (start stop : nat) (s : QString) : QString :=
  String.concat sep (firstn (stop + 1 - start) (skipn start (split sep s))).

Definition startsWith (p s : QString) : bool := prefix p s.

(** [QString::number]/[arg(int)]: the decimal numeral. *)
Definition number (n : Z) : QString := NilZero.string_of_int (Z.to_int n).

(** A format string cut at its place markers [%N], [%NN], [%LN], [%LNN],
    read the way [QString::arg] scans for them. *)
Inductive Piece : Type :=
| Lit (c : ascii)
| Marker (n : nat) (raw : QString).

Fixpoint pieces (s : QString) : list Piece :=
  match s with
  | EmptyString => []
  | String c s1 =>
      if negb (Ascii.eqb c "%") then Lit c :: pieces s1 else
      match s1 with
      | EmptyString => [Lit c]
      | String c1 s2 =>
          if Ascii.eqb c1 "L" then
            match s2 with
            | EmptyString => [Lit c; Lit c1]
            | String c2 s3 =>
                match digitValue c2 with
                | None => Lit c :: Lit c1 :: pieces s2
                | Some d =>
                    match s3 with
                    | EmptyString => [Marker d (String c (String c1 (String c2 EmptyString)))]
                    | String c3 s4 =>
                        match digitValue c3 with
                        | Some d' =>
                            Marker (10 * d + d')
                              (String c (String c1 (String c2 (String c3 EmptyString))))
                            :: pieces s4
                        | None =>
                            Marker d (String c (String c1 (String c2 EmptyString)))
                            :: pieces s3
                        end
                    end
                end
            end
          else
            match digitValue c1 with
            | None => Lit c :: pieces s1
            | Some d =>
                match s2 with
                | EmptyString => [Marker d (String c (String c1 EmptyString))]
                | String c2 s3 =>
                    match digitValue c2 with
                    | Some d' =>
                        Marker (10 * d + d') (String c (String c1 (String c2 EmptyString)))
                        :: pieces s3
                    | None =>
                        Marker d (String c (String c1 EmptyString)) :: pieces s2
                    end
                end
            end
      end
  end.

Fixpoint lowestMarker (ps : list Piece) : option nat :=
  match ps with
  | [] => None
  | Lit _ :: ps' => lowestMarker ps'
  | Marker n _ :: ps' =>
      match lowestMarker ps' with
      | Some m => Some (Nat.min n m)
      | None => Some n
      end
  end.

Fixpoint fill (lowest : nat) (a : QString) (ps : list Piece) : QString :=
  match ps with
  | [] => EmptyString
  | Lit c :: ps' => String c (fill lowest a ps')
  | Marker n raw :: ps' =>
      ((if Nat.eqb n lowest then a else raw) ++ fill lowest a ps')%string
  end.

(** [QString::arg(const QString &a)]: every occurrence of the lowest
    numbered place marker is replaced by [a]; a string with no marker is
    returned as it is. *)
Definition arg (a : QString) (s : QString) : QString :=
  let ps := pieces s in
  match lowestMarker ps with
  | Some m => fill m a ps
  | None => s
  end.

End QStr.

(** ** QRegularExpression

    A backtracking matcher for the fragment of the pattern language the
    program uses: a sequence of atoms, each a character class taken once
    or greedily one or more times, the leading atoms forming capture
    group 1. *)

Module QRegExp.

Inductive CharClass : Type :=
| Digit
| Chr (c : ascii).

Inductive Quant : Type :=
| Once
| OneOrMore.

Record Atom : Type := mkAtom { cls : CharClass; quant : Quant }.

Record Pattern : Type := mkPattern { atoms : list Atom; group1 : nat }.

Definition accepts (k : CharClass) (c : ascii) : bool :=
  match k with
  | Digit => QStr.isDigit c
  | Chr d => Ascii.eqb c d
  end.

(** The text each atom consumes when the atoms match at the start of
    [s].  A greedy atom first tries one more repetition and falls back to
    the rest of the pattern when that fails. *)
Fixpoint matchHere (p : list Atom) (s : QString) {struct s} : option (list QString) :=
  match p with
  | [] => Some []
  | a :: p' =>
      match s with
      | EmptyString => None
      | String c s' =>
          if accepts (cls a) c then
            match quant a with
            | Once => option_map (cons (String c EmptyString)) (matchHere p' s')
            | OneOrMore =>
                match matchHere (a :: p') s' with
                | Some (m :: ms) => Some (String c m :: ms)
                | _ => option_map (cons (String c EmptyString)) (matchHere p' s')
                end
            end
          else None
      end
  end.

(** [QRegularExpression::match]: the match at the leftmost position that
    has one. *)
Fixpoint search (p : list Atom) (s : QString) : option (list QString) :=
  match matchHere p s with
  | Some m => Some m
  | None =>
      match s with
      | EmptyString => None
      | String _ s' => search p s'
      end
  end.

Definition match_ (re : Pattern) (s : QString) : option (list QString) :=
  search (atoms re) s.

(** [QRegularExpressionMatch::captured(1)]. *)
Definition captured1 (re : Pattern) (m : list QString) : QString :=
  String.concat EmptyString (firstn (group1 re) m).

End QRegExp.

(** ** QTextEdit

    The document of the log view is its list of paragraphs; Qt keeps at
    least one, and a document of one empty paragraph is the empty
    document.  A paragraph is taken to be laid out on one line. *)

Module QTextEdit.

Definition Document := list QString.

Definition clear : Document := [EmptyString].

Definition isEmpty (d : Document) : bool :=
  match d with
  | [] => true
  | [b] => QStr.isEmpty b
  | _ :: _ :: _ => false
  end.

(** [QTextEdit::append]: a new paragraph at the end, or the text of the
    only paragraph when the document is empty. *)
Definition append (text : QString) (d : Document) : Document :=
  if isEmpty d then [text] else d ++ [text].

(** The cursor moved to [QTextCursor::End], [LineUnderCursor] selected,
    the selection removed and [text] inserted: the last line is
    replaced. *)
Definition replaceLastLine (text : QString) (d : Document) : Document :=
  removelast d ++ [text].

End QTextEdit.

(** ** QJsonDocument, QJsonObject, QJsonValue *)

Module QJson.

#[warnings="-register-all"]
Inductive Value : Type :=
| Null
| Bool (b : bool)
| Double (d : spec_float)
| Str (s : QString)
| Array (items : list Value)
| Object (members : list (QString * Value))
| Undefined.

Inductive Document : Type :=
| NullDocument
| ArrayDocument (items : list Value)
| ObjectDocument (members : list (QString * Value)).

Definition isNull (d : Document) : bool :=
  match d with
  | NullDocument => true
  | _ => false
  end.

(** [QJsonDocument::object]: the object, or an empty one when the
    document holds an array. *)
Definition object (d : Document) : list (QString * Value) :=
  match d with
  | ObjectDocument ms => ms
  | _ => []
  end.

Fixpoint value (key : QString) (o : list (QString * Value)) : Value :=
  match o with
  | [] => Undefined
  | (k, v) :: o' => if String.eqb k key then v else value key o'
  end.

Definition contains (key : QString) (o : list (QString * Value)) : bool :=
  existsb (fun kv => String.eqb (fst kv) key) o.

Definition isArray (v : Value) : bool :=
  match v with
  | Array _ => true
  | _ => false
  end.

Definition toArray (v : Value) : list Value :=
  match v with
  | Array items => items
  | _ => []
  end.

Definition toString (v : Value) : QString :=
  match v with
  | Str s => s
  | _ => EmptyString
  end.

Definition size (a : list Value) : Z := Z.of_nat (List.length a).

End QJson.

(** ** The output classifier

    The test [readProcessOutput] makes on each trimmed line (lines 274 to
    276 and the two branches it selects): the pattern [(\d+\.\d+)%] is
    searched for, and a match carries its first group. *)

Inductive Classified : Type :=
| ProgressUpdate (percentage : QString)
| PlainLine (text : QString).

Definition re : QRegExp.Pattern :=
  QRegExp.mkPattern
    [ QRegExp.mkAtom QRegExp.Digit QRegExp.OneOrMore;
      QRegExp.mkAtom (QRegExp.Chr ".") QRegExp.Once;
      QRegExp.mkAtom QRegExp.Digit QRegExp.OneOrMore;
      QRegExp.mkAtom (QRegExp.Chr "%") QRegExp.Once ]
    3.

Definition classify (trimmed : QString) : Classified :=
  match QRegExp.match_ re trimmed with
  | Some m => ProgressUpdate (QRegExp.captured1 re m)
  | None => PlainLine trimmed
  end.

(** ** The command line

    The argument list [startDownload] hands to yt-dlp (lines 213 to 245),
    as a function of what it reads from the widgets.  The combo boxes hold
    the items the constructor gives them (lines 68, 72 and 76). *)

Definition videoQualityItems : list QString :=
  ["4K (2160p)"; "1080p"; "720p"; "480p"; "None"].

Definition audioQualityItems : list QString :=
  ["320kbps"; "256kbps"; "128kbps"].

Definition subtitleLangItems : list QString :=
  ["None"; "English (en)"; "French (fr)"; "Spanish (es)"; "German (de)";
   "Italian (it)"; "Portuguese (pt)"; "Russian (ru)"; "Japanese (ja)";
   "Chinese (zh)"; "Arabic (ar)"].

(** [QComboBox::itemText]: the empty string for an index out of range. *)
Definition itemText (items : list QString) (index : Z) : QString :=
  if (index <? 0)%Z then EmptyString
  else nth (Z.to_nat index) items EmptyString.

(** The [switch] on the video index; no case leaves the string empty. *)
Definition videoFormat (videoIndex : Z) : QString :=
  match videoIndex with
  | 0%Z => "bestvideo[height<=2160]+bestaudio/best"
  | 1%Z => "bestvideo[height<=1080]+bestaudio/best"
  | 2%Z => "bestvideo[height<=720]+bestaudio/best"
  | 3%Z => "bestvideo[height<=480]+bestaudio/best"
  | _ => EmptyString
  end.

Definition formatArgs (videoIndex audioIndex : Z) : list QString :=
  if (videoIndex <? 4)%Z then
    ["-f"; videoFormat videoIndex; "--merge-output-format"; "mp4"]
  else
    let audioQuality :=
      QStr.first (QStr.split "kbps" (itemText audioQualityItems audioIndex)) in
    ["-x"; "--audio-format"; "mp3"; "--audio-quality"; audioQuality].

Definition subtitleArgs (subIndex : Z) : list QString :=
  if (subIndex >? 0)%Z then
    let lang :=
      QStr.section ")" 0 0 (QStr.section "(" 1 1 (itemText subtitleLangItems subIndex)) in
    ["--write-subs"; "--sub-langs"; lang]
  else [].

Definition sponsorBlockArgs (checked : bool) : list QString :=
  if checked then ["--sponsorblock-remove"; "all"] else [].

Definition downloadArgs (url savePath : QString) (videoIndex audioIndex subIndex : Z)
    (sponsorBlock : bool) : list QString :=
  ["-o"; QStr.arg savePath "%1/%(title)s.%(ext)s"]
  ++ formatArgs videoIndex audioIndex
  ++ subtitleArgs subIndex
  ++ sponsorBlockArgs sponsorBlock
  ++ [url].

(** ** The window

    The members of [YouTubeDLPWindow] that the slots read or write: each
    input widget by its current value, the button by its label and
    enabled flag, the log view by its document, and the process pointer,
    [None] when null. *)

Record Button : Type := mkButton { text : QString; enabled : bool }.

Record Process : Type := mkProcess { program : QString; arguments : list QString }.

Record Window : Type := mkWindow {
  urlEdit : QString;
  videoQualityCombo : Z;
  audioQualityCombo : Z;
  subtitleLangCombo : Z;
  savePathEdit : QString;
  downloadButton : Button;
  sponsorBlockCheck : bool;
  progressOutput : QTextEdit.Document;
  process : option Process;
  hasProgressLine : bool
}.

Definition setSavePath (p : QString) (w : Window) : Window :=
  mkWindow (urlEdit w) (videoQualityCombo w) (audioQualityCombo w)
    (subtitleLangCombo w) p (downloadButton w) (sponsorBlockCheck w)
    (progressOutput w) (process w) (hasProgressLine w).

Definition setButton (b : Button) (w : Window) : Window :=
  mkWindow (urlEdit w) (videoQualityCombo w) (audioQualityCombo w)
    (subtitleLangCombo w) (savePathEdit w) b (sponsorBlockCheck w)
    (progressOutput w) (process w) (hasProgressLine w).

Definition setProgressOutput (d : QTextEdit.Document) (w : Window) : Window :=
  mkWindow (urlEdit w) (videoQualityCombo w) (audioQualityCombo w)
    (subtitleLangCombo w) (savePathEdit w) (downloadButton w)
    (sponsorBlockCheck w) d (process w) (hasProgressLine w).

Definition setProcess (p : option Process) (w : Window) : Window :=
  mkWindow (urlEdit w) (videoQualityCombo w) (audioQualityCombo w)
    (subtitleLangCombo w) (savePathEdit w) (downloadButton w)
    (sponsorBlockCheck w) (progressOutput w) p (hasProgressLine w).

Definition setHasProgressLine (b : bool) (w : Window) : Window :=
  mkWindow (urlEdit w) (videoQualityCombo w) (audioQualityCombo w)
    (subtitleLangCombo w) (savePathEdit w) (downloadButton w)
    (sponsorBlockCheck w) (progressOutput w) (process w) b.

(** What a slot does outside the window: the message boxes it shows and
    the programs it runs. *)
Inductive Effect : Type :=
| Critical (title message : QString)
| Warning (title message : QString)
| Executed (prog : QString) (args : list QString)
| Started (p : Process).

Inductive StandardButton : Type := Yes | No.

Record Exit : Type := mkExit {
  exitCode : Z;
  standardOutput : QString;
  standardError : QString
}.

(** What answers a slot from outside: the button the user presses in a
    Yes/No message box, and what a program started and waited for leaves
    behind (its run is taken to end within the wait). *)
Record World : Type := mkWorld {
  answer : QString -> QString -> StandardButton;
  execute : QString -> list QString -> Exit
}.

Record QUrl : Type := mkUrl { isValid : bool; scheme : QString }.

(** *** Slots

    A slot runs on the window and the trace of effects so far.  It goes
    on to the next statement, leaves through [return], or dereferences
    the null process pointer, after which nothing is defined. *)

Record State : Type := mkState { win : Window; trace : list Effect }.

Inductive Flow (A : Type) : Type :=
| Next (a : A)
| Returned
| Undefined.

Arguments Next {A} a.
Arguments Returned {A}.
Arguments Undefined {A}.

Definition Slot (A : Type) : Type := State -> Flow A * State.

Definition ret {A : Type} (a : A) : Slot A := fun s => (Next a, s).

Definition bind {A B : Type} (m : Slot A) (k : A -> Slot B) : Slot B :=
  fun s =>
    match m s with
    | (Next a, s') => k a s'
    | (Returned, s') => (Returned, s')
    | (Undefined, s') => (Undefined, s')
    end.

Notation "x <- m ;; k" := (bind m (fun x => k))
  (at level 61, m at next level, right associativity).
Notation "m ;; k" := (bind m (fun _ => k))
  (at level 61, right associativity).

Definition leave {A : Type} : Slot A := fun s => (Returned, s).

Definition read {A : Type} (f : Window -> A) : Slot A := fun s => (Next (f (win s)), s).

Definition modify (f : Window -> Window) : Slot unit :=
  fun s => (Next tt, mkState (f (win s)) (trace s)).

Definition emit (e : Effect) : Slot unit :=
  fun s => (Next tt, mkState (win s) (trace s ++ [e])).

Definition when (b : bool) (m : Slot unit) : Slot unit :=
  if b then m else ret tt.

Fixpoint forEach {A : Type} (l : list A) (body : A -> Slot unit) : Slot unit :=
  match l with
  | [] => ret tt
  | x :: l' => body x ;; forEach l' body
  end.

(** [process->]: the process behind the pointer. *)
Definition deref : Slot Process :=
  fun s =>
    match process (win s) with
    | Some p => (Next p, s)
    | None => (Undefined, s)
    end.

Definition append (t : QString) : Slot unit :=
  modify (fun w => setProgressOutput (QTextEdit.append t (progressOutput w)) w).

Definition setText (t : QString) : Slot unit :=
  modify (fun w => setButton (mkButton t (enabled (downloadButton w))) w).

Definition setEnabled (b : bool) : Slot unit :=
  modify (fun w => setButton (mkButton (text (downloadButton w)) b) w).

Definition warning (world : World) (title message : QString) : Slot StandardButton :=
  emit (Warning title message) ;; ret (answer world title message).

Definition isNo (b : StandardButton) : bool :=
  match b with
  | No => true
  | Yes => false
  end.

(** The state a slot leaves, when it is defined. *)
Definition run (slot : Slot unit) (s : State) : option State :=
  match slot s with
  | (Undefined, _) => None
  | (_, s') => Some s'
  end.

Section Slots.

(** The toolkit's parsers, which the program only calls. *)
Variable parseUrl : QString -> QUrl.
Variable fromJson : QString -> QJson.Document.

(** Lines 143 to 146; [folder] is what the folder dialog returns. *)
Definition chooseFolder (folder : QString) : Slot unit :=
  when (negb (QStr.isEmpty folder)) (modify (setSavePath folder)).

(** Lines 149 to 254. *)
Definition startDownload (world : World) : Slot unit :=
  url <- read urlEdit ;;
  savePath <- read savePathEdit ;;
  when (QStr.isEmpty url || QStr.isEmpty savePath)
    (emit (Critical "Error" "Please provide a URL and save folder.") ;; leave) ;;
  let urlObj := parseUrl url in
  when (isValid urlObj && negb (QStr.startsWith "http" (scheme urlObj)))
    (reply <- warning world "Warning"
       "The URL does not use http or https. This may be unsupported by yt-dlp. Proceed?" ;;
     when (isNo reply) leave) ;;
  emit (Executed "yt-dlp" ["--dump-json"; url]) ;;
  let dumpJsonProcess := execute world "yt-dlp" ["--dump-json"; url] in
  when (negb (exitCode dumpJsonProcess =? 0)%Z)
    (append "---------------------" ;;
     append ("Failed to get metadata: " ++ standardError dumpJsonProcess)%string ;;
     append "---------------------" ;;
     setText "Download" ;;
     setEnabled true ;;
     leave) ;;
  let jsonOutput := standardOutput dumpJsonProcess in
  let jsonDoc := fromJson jsonOutput in
  when (QJson.isNull jsonDoc)
    (append "---------------------" ;;
     append "Invalid metadata from yt-dlp" ;;
     append "---------------------" ;;
     setText "Download" ;;
     setEnabled true ;;
     leave) ;;
  let json := QJson.object jsonDoc in
  when (QJson.contains "entries" json && QJson.isArray (QJson.value "entries" json))
    (let entries := QJson.toArray (QJson.value "entries" json) in
     when (QJson.size entries >? 1)%Z
       (let title := QJson.toString (QJson.value "title" json) in
        reply <- warning world "Multiple Videos Detected"
          (QStr.arg (QStr.number (QJson.size entries))
             (QStr.arg title
                "You are attempting to download '%1' with %2 videos. Are you sure?")) ;;
        when (isNo reply) leave)) ;;
  modify (setHasProgressLine false) ;;
  modify (setProgressOutput QTextEdit.clear) ;;
  append (QStr.arg url "Downloading URL: %1") ;;
  setText "Downloading..." ;;
  setEnabled false ;;
  videoIndex <- read videoQualityCombo ;;
  audioIndex <- read audioQualityCombo ;;
  subIndex <- read subtitleLangCombo ;;
  sponsorBlock <- read sponsorBlockCheck ;;
  let args := downloadArgs url savePath videoIndex audioIndex subIndex sponsorBlock in
  modify (setProcess (Some (mkProcess "yt-dlp" args))) ;;
  emit (Started (mkProcess "yt-dlp" args)).

(** Lines 257 to 266; [errorString] is what [process->errorString()]
    returns. *)
Definition processError (errorString : QString) : Slot unit :=
  append "---------------------" ;;
  _ <- deref ;;
  append ("Failed to start download: " ++ errorString)%string ;;
  append "---------------------" ;;
  setText "Download" ;;
  setEnabled true ;;
  _ <- deref ;;
  modify (setProcess None).

(** Lines 269 to 298; [output] is what [readAllStandardOutput] returns.
    The two calls that scroll the view change neither the document nor a
    member, and are left out. *)
Definition readProcessOutput (output : QString) : Slot unit :=
  _ <- deref ;;
  forEach (QStr.splitSkipEmpty "010" output) (fun line =>
    let trimmed := QStr.trimmed line in
    match classify trimmed with
    | ProgressUpdate percentage =>
        let progressText := QStr.arg percentage "Progress: %1" in
        has <- read hasProgressLine ;;
        if has : bool then
          modify (fun w =>
            setProgressOutput (QTextEdit.replaceLastLine progressText (progressOutput w)) w)
        else
          append progressText ;;
          modify (setHasProgressLine true)
    | PlainLine t => append t
    end).

(** Lines 301 to 312. *)
Definition processFinished (code : Z) : Slot unit :=
  append "---------------------" ;;
  append (if (code =? 0)%Z then "Download Complete" else "Download Failed") ;;
  append "---------------------" ;;
  setText "Download" ;;
  setEnabled true ;;
  _ <- deref ;;
  modify (setProcess None).

End Slots.

(** ** The window over time

    The constructor's window, the events the event loop delivers to the
    slots, and the states they lead through.  The button's [clicked]
    signal only fires while the button is enabled. *)

(** The default save folder: movies, else downloads, else home. *)
Definition defaultSavePath (dirExists : QString -> bool)
    (movies downloads home : QString) : QString :=
  if negb (dirExists movies) then
    if negb (dirExists downloads) then home else downloads
  else movies.

(** The window the constructor builds (lines 58 to 99). *)
Definition newWindow (defaultPath : QString) : Window :=
  mkWindow EmptyString 0 0 0 defaultPath (mkButton "Download" true) false
    QTextEdit.clear None false.

Inductive Event : Type :=
| UrlEdited (t : QString)
| VideoQualityPicked (index : Z)
| AudioQualityPicked (index : Z)
| SubtitleLangPicked (index : Z)
| SponsorBlockToggled (checked : bool)
| FolderChosen (folder : QString)
| DownloadClicked (world : World)
| ErrorOccurred (errorString : QString)
| ReadyReadStandardOutput (output : QString)
| Finished (code : Z).

Section Events.

Variable parseUrl : QString -> QUrl.
Variable fromJson : QString -> QJson.Document.

Definition inRange (items : list QString) (index : Z) : bool :=
  ((0 <=? index) && (index <? Z.of_nat (List.length items)))%Z.

(** Whether the event can reach its slot in the window [w]. *)
Definition deliverable (e : Event) (w : Window) : bool :=
  match e with
  | VideoQualityPicked i => inRange videoQualityItems i
  | AudioQualityPicked i => inRange audioQualityItems i
  | SubtitleLangPicked i => inRange subtitleLangItems i
  | DownloadClicked _ => enabled (downloadButton w)
  | _ => true
  end.

Definition handle (e : Event) : Slot unit :=
  match e with
  | UrlEdited t =>
      modify (fun w =>
        mkWindow t (videoQualityCombo w) (audioQualityCombo w) (subtitleLangCombo w)
          (savePathEdit w) (downloadButton w) (sponsorBlockCheck w)
          (progressOutput w) (process w) (hasProgressLine w))
  | VideoQualityPicked i =>
      modify (fun w =>
        mkWindow (urlEdit w) i (audioQualityCombo w) (subtitleLangCombo w)
          (savePathEdit w) (downloadButton w) (sponsorBlockCheck w)
          (progressOutput w) (process w) (hasProgressLine w))
  | AudioQualityPicked i =>
      modify (fun w =>
        mkWindow (urlEdit w) (videoQualityCombo w) i (subtitleLangCombo w)
          (savePathEdit w) (downloadButton w) (sponsorBlockCheck w)
          (progressOutput w) (process w) (hasProgressLine w))
  | SubtitleLangPicked i =>
      modify (fun w =>
        mkWindow (urlEdit w) (videoQualityCombo w) (audioQualityCombo w) i
          (savePathEdit w) (downloadButton w) (sponsorBlockCheck w)
          (progressOutput w) (process w) (hasProgressLine w))
  | SponsorBlockToggled b =>
      modify (fun w =>
        mkWindow (urlEdit w) (videoQualityCombo w) (audioQualityCombo w)
          (subtitleLangCombo w) (savePathEdit w) (downloadButton w) b
          (progressOutput w) (process w) (hasProgressLine w))
  | FolderChosen folder => chooseFolder folder
  | DownloadClicked world => startDownload parseUrl fromJson world
  | ErrorOccurred errorString => processError errorString
  | ReadyReadStandardOutput output => readProcessOutput output
  | Finished code => processFinished code
  end.

(** The events [es] delivered one after the other. *)
Fixpoint deliver (es : list Event) (s : State) : option State :=
  match es with
  | [] => Some s
  | e :: es' =>
      match run (handle e) s with
      | Some s' => deliver es' s'
      | None => None
      end
  end.

Inductive step : State -> Event -> State -> Prop :=
| step_event (s s' : State) (e : Event) :
    deliverable e (win s) = true ->
    run (handle e) s = Some s' ->
    step s e s'.

Inductive reachable : State -> Prop :=
| reachable_new (defaultPath : QString) :
    reachable (mkState (newWindow defaultPath) [])
| reachable_step (s s' : State) (e : Event) :
    reachable s -> step s e s' -> reachable s'.

End Events.

(** ** Vocabulary of the statements

    What the specification calls a decimal number followed by a percent
    sign, and the rendering contract it gives for the log view. *)

Fixpoint allDigits (s : QString) : bool :=
  match s with
  | EmptyString => true
  | String c s' => QStr.isDigit c && allDigits s'
  end.

(** A run of one or more digits. *)
Definition numeral (s : QString) : bool := negb (QStr.isEmpty s) && allDigits s.

(** Digits, a point, digits. *)
Definition decimal (c : QString) : Prop :=
  exists i f : QString,
    c = (i ++ "." ++ f)%string /\ numeral i = true /\ numeral f = true.

(** [line] reads [pre], then the decimal number [c], then a percent sign. *)
Definition decimalPercentAt (pre c post line : QString) : Prop :=
  line = (pre ++ c ++ "%" ++ post)%string /\ decimal c.

Definition containsDecimalPercent (line : QString) : Prop :=
  exists pre c post, decimalPercentAt pre c post line.

(** [c] is the decimal number of the occurrence that starts first. *)
Definition firstDecimalPercent (line c : QString) : Prop :=
  exists pre post,
    decimalPercentAt pre c post line /\
    forall pre' c' post',
      decimalPercentAt pre' c' post' line -> String.length pre <= String.length pre'.

(** [line] holds a percentage written without a fraction. *)
Definition containsIntegerPercent (line : QString) : Prop :=
  exists pre d post, line = (pre ++ d ++ "%" ++ post)%string /\ numeral d = true.

(** The longest prefix of digits, and what follows it. *)
Fixpoint spanDigits (s : QString) : QString * QString :=
  match s with
  | EmptyString => (EmptyString, EmptyString)
  | String c s' =>
      if QStr.isDigit c then
        let (d, r) := spanDigits s' in (String c d, r)
      else (EmptyString, s)
  end.

(** The decimal number followed by a percent sign that [s] starts with,
    read off the longest runs of digits. *)
Definition decimalPercentHere (s : QString) : option (QString * QString) :=
  let (i, r1) := spanDigits s in
  if QStr.isEmpty i then None else
  match r1 with
  | String "." r2 =>
      let (f, r3) := spanDigits r2 in
      if QStr.isEmpty f then None else
      match r3 with
      | String "%" _ => Some (i, f)
      | _ => None
      end
  | _ => None
  end.

(** Whether some position of [s] starts a decimal number followed by a
    percent sign. *)
Fixpoint hasDecimalPercent (s : QString) : bool :=
  match decimalPercentHere s with
  | Some _ => true
  | None =>
      match s with
      | EmptyString => false
      | String _ s' => hasDecimalPercent s'
      end
  end.

(** The format expression that caps the vertical resolution at [h]
    pixels. *)
Definition heightCap (h : Z) : QString :=
  ("bestvideo[height<=" ++ QStr.number h ++ "]+bestaudio/best")%string.

(** The output template for the folder [savePath]. *)
Definition outputTemplate (savePath : QString) : QString :=
  (savePath ++ "/%(title)s.%(ext)s")%string.

(** The rendering contract, in the specification's words: a plain line
    is appended; a progress update replaces the last line when that line
    is a progress line, and is appended otherwise. *)
Fixpoint renderContract (lastIsProgress : bool) (log : QTextEdit.Document)
    (ls : list Classified) : QTextEdit.Document :=
  match ls with
  | [] => log
  | PlainLine t :: ls' => renderContract false (QTextEdit.append t log) ls'
  | ProgressUpdate p :: ls' =>
      let progressText := ("Progress: " ++ p)%string in
      renderContract true
        (if lastIsProgress then QTextEdit.replaceLastLine progressText log
         else QTextEdit.append progressText log)
        ls'
  end.

(** What [readProcessOutput] does with the same lines: [hasProgressLine]
    is set by the first progress update and stays set. *)
Fixpoint renderSticky (hasProgress : bool) (log : QTextEdit.Document)
    (ls : list Classified) : bool * QTextEdit.Document :=
  match ls with
  | [] => (hasProgress, log)
  | PlainLine t :: ls' => renderSticky hasProgress (QTextEdit.append t log) ls'
  | ProgressUpdate p :: ls' =>
      let progressText := ("Progress: " ++ p)%string in
      renderSticky true
        (if hasProgress then QTextEdit.replaceLastLine progressText log
         else QTextEdit.append progressText log)
        ls'
  end.

(** The lines of a chunk as [readProcessOutput] classifies them. *)
Definition classifiedLines (output : QString) : list Classified :=
  map (fun line => classify (QStr.trimmed line)) (QStr.splitSkipEmpty "010" output).

(** The window after [readProcessOutput] has shown the lines [ls]. *)
Definition rendered (ls : list Classified) (w : Window) : Window :=
  let r := renderSticky (hasProgressLine w) (progressOutput w) ls in
  setHasProgressLine (fst r) (setProgressOutput (snd r) w).

(** A chunk of output: the lines, each ended by a line feed. *)
Definition newline : QString := String "010" EmptyString.

Definition chunk (ls : list QString) : QString :=
  String.concat EmptyString (map (fun l => (l ++ newline)%string) ls).

(** *** The paths through [startDownload]

    The tests the slot makes, by name, and the windows it leaves. *)

Definition separator : QString := "---------------------".

Definition schemeQuestion : QString :=
  "The URL does not use http or https. This may be unsupported by yt-dlp. Proceed?".

Definition multiQuestion (title : QString) (count : Z) : QString :=
  QStr.arg (QStr.number count)
    (QStr.arg title "You are attempting to download '%1' with %2 videos. Are you sure?").

Definition missingInput (w : Window) : bool :=
  QStr.isEmpty (urlEdit w) || QStr.isEmpty (savePathEdit w).

(** The metadata probe of the window's URL, run to its end. *)
Definition probe (world : World) (w : Window) : Exit :=
  execute world "yt-dlp" ["--dump-json"; urlEdit w].

(** The three lines of an error banner, appended. *)
Definition banner (message : QString) (d : QTextEdit.Document) : QTextEdit.Document :=
  QTextEdit.append separator (QTextEdit.append message (QTextEdit.append separator d)).

(** The window after a failure banner: the message in the log between two
    separator lines, the button idle. *)
Definition failed (message : QString) (w : Window) : Window :=
  setButton (mkButton "Download" true)
    (setProgressOutput (banner message (progressOutput w)) w).

(** The window once the download is started with [args]. *)
Definition downloading (args : list QString) (w : Window) : Window :=
  mkWindow (urlEdit w) (videoQualityCombo w) (audioQualityCombo w)
    (subtitleLangCombo w) (savePathEdit w) (mkButton "Downloading..." false)
    (sponsorBlockCheck w)
    [("Downloading URL: " ++ urlEdit w)%string]
    (Some (mkProcess "yt-dlp" args)) false.

Definition windowArgs (w : Window) : list QString :=
  downloadArgs (urlEdit w) (savePathEdit w) (videoQualityCombo w)
    (audioQualityCombo w) (subtitleLangCombo w) (sponsorBlockCheck w).

(** The button shows its idle label and can be pressed, and the process
    pointer is null. *)
Definition idle (w : Window) : Prop :=
  downloadButton w = mkButton "Download" true /\ process w = None.

(** The download processes a trace starts, and the Yes/No questions it
    asks, in order. *)
Definition spawned (tr : list Effect) : list Process :=
  flat_map (fun e => match e with Started p => [p] | _ => [] end) tr.

Definition asked (tr : list Effect) : list (QString * QString) :=
  flat_map (fun e => match e with Warning t m => [(t, m)] | _ => [] end) tr.

Section Paths.

Variable parseUrl : QString -> QUrl.
Variable fromJson : QString -> QJson.Document.
Variable world : World.

(** The URL's scheme makes the slot ask whether to go on. *)
Definition schemeQuestioned (w : Window) : bool :=
  isValid (parseUrl (urlEdit w))
  && negb (QStr.startsWith "http" (scheme (parseUrl (urlEdit w)))).

Definition schemeDeclined (w : Window) : bool :=
  schemeQuestioned w && isNo (answer world "Warning" schemeQuestion).

(** The slot gets as far as running the probe. *)
Definition probed (w : Window) : bool :=
  negb (missingInput w) && negb (schemeDeclined w).

(** What the slot has done outside the window when the probe ends. *)
Definition probeTrace (w : Window) : list Effect :=
  (if schemeQuestioned w then [Warning "Warning" schemeQuestion] else [])
  ++ [Executed "yt-dlp" ["--dump-json"; urlEdit w]].

(** The object the probe's output parses to. *)
Definition metadata (w : Window) : list (QString * QJson.Value) :=
  QJson.object (fromJson (standardOutput (probe world w))).

(** The question about a collection of more than one item, when the
    metadata makes the slot ask it. *)
Definition multiItemQuestion (json : list (QString * QJson.Value)) : option QString :=
  if QJson.contains "entries" json && QJson.isArray (QJson.value "entries" json)
  then
    let entries := QJson.toArray (QJson.value "entries" json) in
    if (QJson.size entries >? 1)%Z
    then Some (multiQuestion (QJson.toString (QJson.value "title" json))
                 (QJson.size entries))
    else None
  else None.

(** [startDownload] as the cascade of its tests. *)
Definition startDownloadPaths (s : State) : Flow unit * State :=
  let w := win s in
  if missingInput w then
    (Returned,
     mkState w (trace s ++ [Critical "Error" "Please provide a URL and save folder."]))
  else if schemeDeclined w then
    (Returned, mkState w (trace s ++ [Warning "Warning" schemeQuestion]))
  else
    let tr := trace s ++ probeTrace w in
    if negb (exitCode (probe world w) =? 0)%Z then
      (Returned,
       mkState
         (failed ("Failed to get metadata: " ++ standardError (probe world w))%string w)
         tr)
    else if QJson.isNull (fromJson (standardOutput (probe world w))) then
      (Returned, mkState (failed "Invalid metadata from yt-dlp" w) tr)
    else
      match multiItemQuestion (metadata w) with
      | Some question =>
          let tr' := tr ++ [Warning "Multiple Videos Detected" question] in
          if isNo (answer world "Multiple Videos Detected" question) then
            (Returned, mkState w tr')
          else
            (Next tt,
             mkState (downloading (windowArgs w) w)
               (tr' ++ [Started (mkProcess "yt-dlp" (windowArgs w))]))
      | None =>
          (Next tt,
           mkState (downloading (windowArgs w) w)
             (tr ++ [Started (mkProcess "yt-dlp" (windowArgs w))]))
      end.

End Paths.

(** The failures the specification lists, each with what the outside
    world did to cause it, and the event that carries it. *)
Inductive Failure : Type :=
| ProbeFailed (world : World)
| InvalidMetadata (world : World)
| SpawnError (errorString : QString)
| DownloadFailed (code : Z).

Definition failureEvent (f : Failure) : Event :=
  match f with
  | ProbeFailed world => DownloadClicked world
  | InvalidMetadata world => DownloadClicked world
  | SpawnError errorString => ErrorOccurred errorString
  | DownloadFailed code => Finished code
  end.

(** The failure [f] is what happens next in the state [s]. *)
Definition befalls (parseUrl : QString -> QUrl) (fromJson : QString -> QJson.Document)
    (f : Failure) (s : State) : Prop :=
  match f with
  | ProbeFailed world =>
      enabled (downloadButton (win s)) = true /\
      probed parseUrl world (win s) = true /\
      exitCode (probe world (win s)) <> 0%Z
  | InvalidMetadata world =>
      enabled (downloadButton (win s)) = true /\
      probed parseUrl world (win s) = true /\
      exitCode (probe world (win s)) = 0%Z /\
      QJson.isNull (fromJson (standardOutput (probe world (win s)))) = true
  | SpawnError _ => process (win s) <> None
  | DownloadFailed code => process (win s) <> None /\ code <> 0%Z
  end.

(** No character of [s] is a percent sign, so [s] holds no place marker. *)
Fixpoint noPercent (s : QString) : bool :=
  match s with
  | EmptyString => true
  | String c s' => negb (Ascii.eqb c "%") && noPercent s'
  end.

(** At most one child process: while the button can be pressed, the
    process pointer is null. *)
Definition oneProcess (w : Window) : Prop :=
  enabled (downloadButton w) = true -> process w = None.

Definition isPlain (c : Classified) : bool :=
  match c with
  | PlainLine _ => true
  | ProgressUpdate _ => false
  end.

(** No progress update comes after a plain line that follows a progress
    update. *)
Fixpoint settled (seenProgress : bool) (ls : list Classified) : bool :=
  match ls with
  | [] => true
  | ProgressUpdate _ :: ls' => settled true ls'
  | PlainLine _ :: ls' =>
      if seenProgress then forallb isPlain ls' else settled false ls'
  end.

(** *** Worked cases

    A window ready to download one video, surroundings for it, and the
    output of a download that fetches the video and then the audio. *)

Definition sampleWindow : Window :=
  mkWindow "https://youtu.be/v" 0 0 0 "/home/me/Videos" (mkButton "Download" true)
    false QTextEdit.clear None false.

Definition httpsUrl (url : QString) : QUrl := mkUrl true "https".

Definition playlistJson (output : QString) : QJson.Document :=
  QJson.ObjectDocument
    [("title", QJson.Str "Mix");
     ("entries", QJson.Array [QJson.Null; QJson.Null; QJson.Null])].

Definition videoJson (output : QString) : QJson.Document :=
  QJson.ObjectDocument [("title", QJson.Str "Video")].

Definition noJson (output : QString) : QJson.Document := QJson.NullDocument.

Definition failingProbe : World :=
  mkWorld (fun _ _ => Yes) (fun _ _ => mkExit 1 "" "ERROR: Unsupported URL").

Definition decliningUser : World :=
  mkWorld (fun _ _ => No) (fun _ _ => mkExit 0 "{}" "").

Definition agreeingUser : World :=
  mkWorld (fun _ _ => Yes) (fun _ _ => mkExit 0 "{}" "").

(** The state after the user has typed the URL, pressed the button and
    agreed to download the collection. *)
Definition sampleDownload : State :=
  mkState (downloading (windowArgs sampleWindow) sampleWindow)
    [Executed "yt-dlp" ["--dump-json"; "https://youtu.be/v"];
     Warning "Multiple Videos Detected" (multiQuestion "Mix" 3);
     Started (mkProcess "yt-dlp" (windowArgs sampleWindow))].

Definition sampleOutput : QString :=
  chunk ["[download]  10.0% of 5.00MiB";
         "[download] Destination: v.m4a";
         "[download]  20.0% of 1.00MiB"].

(** *** Further vocabulary

    What the input widgets hold, the signals of the child process, and the
    shapes a command line can take. *)

Definition inputs (w : Window) : QString * Z * Z * Z * QString * bool :=
  (urlEdit w, videoQualityCombo w, audioQualityCombo w, subtitleLangCombo w,
   savePathEdit w, sponsorBlockCheck w).

(** The signals the slots receive from the process they supervise. *)
Definition isProcessSignal (e : Event) : bool :=
  match e with
  | ErrorOccurred _ | ReadyReadStandardOutput _ | Finished _ => true
  | _ => false
  end.

(** The events that come from the user's editing of the input widgets. *)
Definition isEdit (e : Event) : bool :=
  match e with
  | UrlEdited _ | VideoQualityPicked _ | AudioQualityPicked _
  | SubtitleLangPicked _ | SponsorBlockToggled _ | FolderChosen _ => true
  | _ => false
  end.

(** Either the button is idle and nothing is supervised, or it is greyed
    out with its busy label and a yt-dlp process is supervised. *)
Definition supervised (w : Window) : Prop :=
  (downloadButton w = mkButton "Download" true /\ process w = None) \/
  (downloadButton w = mkButton "Downloading..." false /\
   exists args, process w = Some (mkProcess "yt-dlp" args)).

(** Each combo box shows one of its items. *)
Definition indicesInRange (w : Window) : Prop :=
  inRange videoQualityItems (videoQualityCombo w) = true /\
  inRange audioQualityItems (audioQualityCombo w) = true /\
  inRange subtitleLangItems (subtitleLangCombo w) = true.

(** The format blocks of a command line: a height cap merged to mp4, or
    mp3 extraction at a bitrate. *)
Definition formatBlocks : list (list QString) :=
  map (fun h => ["-f"; heightCap h; "--merge-output-format"; "mp4"])
    [2160; 1080; 720; 480]%Z
  ++ map (fun q => ["-x"; "--audio-format"; "mp3"; "--audio-quality"; QStr.number q])
       [320; 256; 128]%Z.

Definition subtitleCodes : list QString :=
  ["en"; "fr"; "es"; "de"; "it"; "pt"; "ru"; "ja"; "zh"; "ar"].

Definition languageNames : list QString :=
  ["English"; "French"; "Spanish"; "German"; "Italian"; "Portuguese"; "Russian";
   "Japanese"; "Chinese"; "Arabic"].

Definition subtitleBlocks : list (list QString) :=
  [] :: map (fun code => ["--write-subs"; "--sub-langs"; code]) subtitleCodes.

(** A command line of the documented shape. *)
Definition wellFormed (p : Process) : Prop :=
  program p = "yt-dlp" /\
  exists savePath format subtitles sponsorBlock url,
    In format formatBlocks /\ In subtitles subtitleBlocks /\
    arguments p
    = ["-o"; outputTemplate savePath] ++ format ++ subtitles
      ++ sponsorBlockArgs sponsorBlock ++ [url].

(** The log of a running download: a heading that names the URL handed
    to the process, then the lines shown since; a progress line, once
    shown, is one of those. *)
Definition headed (w : Window) : Prop :=
  exists p rest,
    process w = Some p /\
    progressOutput w
    = ("Downloading URL: " ++ last (arguments p) EmptyString)%string :: rest /\
    (hasProgressLine w = true -> rest <> []).

(** What holds of every state the window reaches. *)
Definition sound (s : State) : Prop :=
  supervised (win s) /\
  indicesInRange (win s) /\
  (process (win s) <> None -> headed (win s)) /\
  Forall wellFormed (spawned (trace s)).

Fixpoint allSpaces (s : QString) : bool :=
  match s with
  | EmptyString => true
  | String c s' => QStr.isSpace c && allSpaces s'
  end.

Fixpoint noLineFeed (s : QString) : bool :=
  match s with
  | EmptyString => true
  | String c s' => negb (Ascii.eqb c "010") && noLineFeed s'
  end.

(** The last character of a string, when it has one. *)
Fixpoint lastChar (s : QString) : option ascii :=
  match s with
  | EmptyString => None
  | String c EmptyString => Some c
  | String _ s' => lastChar s'
  end.

(** *** A question that reads its parts, and a process that crashes *)

(** The text [part] occurs in the text [whole]. *)
Fixpoint includes (part whole : QString) : bool :=
  prefix part whole ||
  match whole with
  | EmptyString => false
  | String _ rest => includes part rest
  end.

(** Metadata of a collection of three items whose declared title holds
    an encoded slash. *)
Definition encodedTitleJson (output : QString) : QJson.Document :=
  QJson.ObjectDocument
    [("title", QJson.Str "A%2FB");
     ("entries", QJson.Array [QJson.Null; QJson.Null; QJson.Null])].

(** The signals of a process that crashes after it has started: QProcess
    reports the crash with [errorOccurred] and then the end of the process
    with [finished], both while control is in the event loop. *)
Definition crashSignals (errorString : QString) (code : Z) : list Event :=
  [ErrorOccurred errorString; Finished code].

(** Running a slot symbolically: the combinators and the setters are
    unfolded, the projections of the records reduced. *)
Ltac slot_cbn :=
  cbv beta iota zeta delta
    [bind ret when read modify emit leave warning append setText setEnabled
     deref win trace
     setSavePath setButton setProgressOutput setProcess setHasProgressLine];
  cbn [andb urlEdit videoQualityCombo audioQualityCombo subtitleLangCombo
       savePathEdit downloadButton sponsorBlockCheck progressOutput process
       hasProgressLine text enabled].

(** * Facts about strings *)

Local Open Scope string_scope.

Lemma append_nil_r (s : QString) : (s ++ "")%string = s.
Proof.
  induction s as [|c s IH]; simpl; [reflexivity | now rewrite IH].
Qed.

Lemma append_assoc (a b c : QString) : ((a ++ b) ++ c)%string = (a ++ b ++ c)%string.
Proof.
  induction a as [|x a IH]; simpl; [reflexivity | now rewrite IH].
Qed.

Lemma length_append (a b : QString) :
  String.length (a ++ b) = String.length a + String.length b.
Proof.
  induction a as [|x a IH]; simpl; [reflexivity | now rewrite IH].
Qed.

(** * The pattern [(\d+\.\d+)%] *)

Lemma spanDigits_spec (s : QString) :
  s = (fst (spanDigits s) ++ snd (spanDigits s))%string /\
  allDigits (fst (spanDigits s)) = true /\
  match snd (spanDigits s) with
  | String c _ => QStr.isDigit c = false
  | EmptyString => True
  end.
Proof.
  induction s as [|c s (IH1 & IH2 & IH3)]; simpl.
  - repeat split.
  - destruct (QStr.isDigit c) eqn:D.
    + destruct (spanDigits s) as [d r]; simpl in *.
      repeat split; [now rewrite IH1 at 1 | now rewrite D | exact IH3].
    + simpl. repeat split. exact D.
Qed.

Lemma spanDigits_append (i r : QString) :
  allDigits i = true ->
  match r with
  | String c _ => QStr.isDigit c = false
  | EmptyString => True
  end ->
  spanDigits (i ++ r)%string = (i, r).
Proof.
  intros Hi Hr. induction i as [|c i IH]; simpl in *.
  - destruct r as [|c r]; [reflexivity|]. simpl. now rewrite Hr.
  - apply andb_true_iff in Hi as [Hc Hi]. rewrite Hc, (IH Hi). reflexivity.
Qed.

(** A greedy run of digits before a literal that is no digit takes the
    longest run: giving a digit back can never help. *)
Lemma matchHere_digits (x : ascii) (p : list QRegExp.Atom) (s : QString) :
  QStr.isDigit x = false ->
  QRegExp.matchHere
    (QRegExp.mkAtom QRegExp.Digit QRegExp.OneOrMore
     :: QRegExp.mkAtom (QRegExp.Chr x) QRegExp.Once :: p) s
  = if QStr.isEmpty (fst (spanDigits s)) then None
    else option_map (cons (fst (spanDigits s)))
           (QRegExp.matchHere (QRegExp.mkAtom (QRegExp.Chr x) QRegExp.Once :: p)
              (snd (spanDigits s))).
Proof.
  intros Hx. induction s as [|c s IH]; [reflexivity|].
  cbn [QRegExp.matchHere QRegExp.cls QRegExp.quant QRegExp.accepts spanDigits].
  destruct (QStr.isDigit c) eqn:D; [|reflexivity].
  rewrite IH. clear IH.
  destruct (spanDigits s) as [d r] eqn:E. cbn [fst snd QStr.isEmpty].
  destruct d as [|c' d]; cbn [QStr.isEmpty].
  - (* no further digit: the run is this one character *)
    pose proof (spanDigits_spec s) as (A & _). rewrite E in A. simpl in A.
    now subst r.
  - destruct (QRegExp.matchHere _ r) as [ms|] eqn:M; [reflexivity|].
    cbn [option_map].
    (* falling back to a shorter run meets a digit where [x] is due *)
    destruct s as [|c0 s]; [discriminate|].
    pose proof (spanDigits_spec (String c0 s)) as (_ & A & _).
    rewrite E in A. simpl in E.
    destruct (QStr.isDigit c0) eqn:D0; [|discriminate].
    cbn [QRegExp.matchHere QRegExp.cls QRegExp.quant QRegExp.accepts].
    destruct (Ascii.eqb c0 x) eqn:Ex; [|reflexivity].
    apply Ascii.eqb_eq in Ex. congruence.
Qed.

Lemma matchHere_re (s : QString) :
  QRegExp.matchHere (QRegExp.atoms re) s
  = match decimalPercentHere s with
    | Some (i, f) => Some [i; "."; f; "%"]%string
    | None => None
    end.
Proof.
  unfold re, decimalPercentHere. cbn [QRegExp.atoms].
  rewrite matchHere_digits by reflexivity.
  destruct (spanDigits s) as [i r1]. cbn [fst snd].
  destruct (QStr.isEmpty i); [reflexivity|].
  destruct r1 as [|c r2]; [reflexivity|].
  cbn [QRegExp.matchHere QRegExp.cls QRegExp.quant QRegExp.accepts].
  destruct (Ascii.eqb c ".") eqn:Ec.
  - apply Ascii.eqb_eq in Ec. subst c.
    rewrite matchHere_digits by reflexivity.
    destruct (spanDigits r2) as [f r3]. cbn [fst snd].
    destruct (QStr.isEmpty f); [reflexivity|].
    destruct r3 as [|c3 r4]; [reflexivity|].
    cbn [QRegExp.matchHere QRegExp.cls QRegExp.quant QRegExp.accepts].
    destruct (Ascii.eqb c3 "%") eqn:E3.
    + apply Ascii.eqb_eq in E3. subst c3. now destruct r4.
    + apply Ascii.eqb_neq in E3.
      destruct c3 as [[] [] [] [] [] [] [] []]; try reflexivity. now elim E3.
  - apply Ascii.eqb_neq in Ec.
    destruct c as [[] [] [] [] [] [] [] []]; try reflexivity. now elim Ec.
Qed.

Lemma numeral_true (s : QString) :
  numeral s = true <-> s <> EmptyString /\ allDigits s = true.
Proof.
  unfold numeral. rewrite andb_true_iff, negb_true_iff.
  destruct s; simpl; split; intros [A B]; split; congruence.
Qed.

Lemma decimalPercentHere_Some (s i f : QString) :
  decimalPercentHere s = Some (i, f) <->
  numeral i = true /\ numeral f = true /\
  exists post, s = (i ++ "." ++ f ++ "%" ++ post)%string.
Proof.
  unfold decimalPercentHere. split.
  - pose proof (spanDigits_spec s) as (E1 & A1 & _).
    destruct (spanDigits s) as [i' r1]. cbn [fst snd] in *.
    destruct (QStr.isEmpty i') eqn:N1; [discriminate|].
    destruct r1 as [|c r2]; [discriminate|].
    destruct c as [[] [] [] [] [] [] [] []]; try discriminate.
    pose proof (spanDigits_spec r2) as (E2 & A2 & _).
    destruct (spanDigits r2) as [f' r3]. cbn [fst snd] in *.
    destruct (QStr.isEmpty f') eqn:N2; [discriminate|].
    destruct r3 as [|c3 r4]; [discriminate|].
    destruct c3 as [[] [] [] [] [] [] [] []]; try discriminate.
    intros [= <- <-]. unfold numeral. rewrite N1, N2, A1, A2.
    repeat split. exists r4. rewrite E1 at 1. rewrite E2 at 1. reflexivity.
  - intros (Hi & Hf & post & ->).
    apply numeral_true in Hi as [Ni Ai]. apply numeral_true in Hf as [Nf Af].
    rewrite (spanDigits_append i) by (assumption || reflexivity).
    destruct i as [|ci i]; [congruence|]. cbn [QStr.isEmpty].
    change ("." ++ f ++ "%" ++ post)%string with (String "." (f ++ String "%" post)).
    cbv iota.
    rewrite (spanDigits_append f) by (assumption || reflexivity).
    destruct f as [|cf f]; [congruence|]. reflexivity.
Qed.

Lemma search_Some (p : list QRegExp.Atom) (s : QString) (m : list QString) :
  QRegExp.search p s = Some m <->
  exists pre suf,
    s = (pre ++ suf)%string /\ QRegExp.matchHere p suf = Some m /\
    forall pre' suf',
      s = (pre' ++ suf')%string -> String.length pre' < String.length pre ->
      QRegExp.matchHere p suf' = None.
Proof.
  induction s as [|c s IH].
  - cbn [QRegExp.search]. split.
    + destruct (QRegExp.matchHere p "") eqn:M; [|discriminate].
      intros [= <-]. exists EmptyString, EmptyString. repeat split; [exact M|].
      intros pre' suf' _ L. simpl in L. lia.
    + intros ([|x pre] & suf & E & M & _); [|discriminate].
      simpl in E. subst suf. now rewrite M.
  - cbn [QRegExp.search]. destruct (QRegExp.matchHere p (String c s)) eqn:M0.
    + split.
      * intros [= <-]. exists EmptyString, (String c s). repeat split; [exact M0|].
        intros pre' suf' _ L. simpl in L. lia.
      * intros (pre & suf & E & M & Least).
        destruct pre as [|x pre].
        -- simpl in E. subst suf. congruence.
        -- specialize (Least EmptyString (String c s) eq_refl ltac:(simpl; lia)).
           congruence.
    + rewrite IH. split.
      * intros (pre & suf & -> & M & Least).
        exists (String c pre), suf. repeat split; [exact M|].
        intros [|x pre'] suf' E L.
        -- simpl in E. now subst suf'.
        -- simpl in E. injection E as -> E. apply (Least pre' suf' E).
           simpl in L. lia.
      * intros (pre & suf & E & M & Least).
        destruct pre as [|x pre].
        -- simpl in E. subst suf. congruence.
        -- simpl in E. injection E as <- E.
           exists pre, suf. repeat split; [exact E | exact M|].
           intros pre' suf' E' L. apply (Least (String c pre') suf').
           ++ simpl. now rewrite E'.
           ++ simpl. lia.
Qed.

Lemma search_None (p : list QRegExp.Atom) (s : QString) :
  QRegExp.search p s = None <->
  forall pre suf, s = (pre ++ suf)%string -> QRegExp.matchHere p suf = None.
Proof.
  induction s as [|c s IH]; cbn [QRegExp.search].
  - split.
    + intros H [|x pre] suf E; [|discriminate]. simpl in E. subst suf.
      now destruct (QRegExp.matchHere p "").
    + intros H. now rewrite (H EmptyString EmptyString eq_refl).
  - split.
    + destruct (QRegExp.matchHere p (String c s)) eqn:M0; [discriminate|].
      intros H [|x pre] suf E.
      * simpl in E. now subst suf.
      * simpl in E. injection E as <- E. now apply (proj1 IH H pre).
    + intros H. rewrite (H EmptyString (String c s) eq_refl).
      apply IH. intros pre suf E. apply (H (String c pre)). simpl. now rewrite E.
Qed.

Lemma decimalPercentHere_occurs (s i f : QString) :
  decimalPercentHere s = Some (i, f) ->
  exists post, decimalPercentAt EmptyString (i ++ "." ++ f) post s.
Proof.
  intros H. apply decimalPercentHere_Some in H as (Hi & Hf & post & ->).
  exists post. split.
  - simpl. now rewrite !append_assoc.
  - now exists i, f.
Qed.

Lemma occurs_decimalPercentHere (c post : QString) :
  decimal c ->
  exists i f, c = (i ++ "." ++ f)%string /\
    decimalPercentHere (c ++ "%" ++ post) = Some (i, f).
Proof.
  intros (i & f & -> & Hi & Hf). exists i, f. split; [reflexivity|].
  apply decimalPercentHere_Some. repeat split; try assumption.
  exists post. simpl. now rewrite !append_assoc.
Qed.

Lemma hasDecimalPercent_spec (s : QString) :
  hasDecimalPercent s = true <-> containsDecimalPercent s.
Proof.
  split.
  - induction s as [|x s IH]; cbn [hasDecimalPercent].
    + destruct (decimalPercentHere "") as [[i f]|] eqn:H; [|discriminate].
      intros _. destruct (decimalPercentHere_occurs _ _ _ H) as (post & O).
      now exists EmptyString, (i ++ "." ++ f)%string, post.
    + destruct (decimalPercentHere (String x s)) as [[i f]|] eqn:H.
      * intros _. destruct (decimalPercentHere_occurs _ _ _ H) as (post & O).
        now exists EmptyString, (i ++ "." ++ f)%string, post.
      * intros T. destruct (IH T) as (pre & c & post & -> & D).
        exists (String x pre), c, post. now split.
  - intros (pre & c & post & -> & D).
    destruct (occurs_decimalPercentHere c post D) as (i & f & _ & H).
    remember (c ++ "%" ++ post) as suf eqn:E. clear E.
    induction pre as [|x pre IH]; cbn [String.append].
    + destruct suf; cbn [hasDecimalPercent]; now rewrite H.
    + cbn [hasDecimalPercent]. rewrite IH.
      destruct (decimalPercentHere (String x (pre ++ suf))); reflexivity.
Qed.

Lemma captured1_re (i f : QString) :
  QRegExp.captured1 re [i; "."; f; "%"]%string = (i ++ "." ++ f)%string.
Proof. reflexivity. Qed.

Lemma classify_progress_iff (line c : QString) :
  classify line = ProgressUpdate c <-> firstDecimalPercent line c.
Proof.
  unfold classify, QRegExp.match_. split.
  - destruct (QRegExp.search (QRegExp.atoms re) line) as [m|] eqn:S; [|discriminate].
    intros [= <-].
    apply search_Some in S as (pre & suf & -> & M & Least).
    rewrite matchHere_re in M.
    destruct (decimalPercentHere suf) as [[i f]|] eqn:H; [|discriminate].
    injection M as <-. rewrite captured1_re.
    destruct (decimalPercentHere_occurs _ _ _ H) as (post & -> & D).
    exists pre, post. split; [now split|].
    intros pre' c' post' (E & D').
    destruct (le_lt_dec (String.length pre) (String.length pre')) as [|L]; [assumption|].
    specialize (Least pre' (c' ++ "%" ++ post')%string E L).
    rewrite matchHere_re in Least.
    destruct (occurs_decimalPercentHere c' post' D') as (i' & f' & _ & H').
    rewrite H' in Least. discriminate.
  - intros (pre & post & (-> & D) & First).
    destruct (occurs_decimalPercentHere c post D) as (i & f & -> & H).
    assert (S : QRegExp.search (QRegExp.atoms re)
                  (pre ++ (i ++ "." ++ f) ++ "%" ++ post)%string
                = Some [i; "."; f; "%"]%string).
    { apply search_Some. exists pre, ((i ++ "." ++ f) ++ "%" ++ post)%string.
      repeat split.
      - rewrite matchHere_re. now rewrite H.
      - intros pre' suf' E L. rewrite matchHere_re.
        destruct (decimalPercentHere suf') as [[i' f']|] eqn:H'; [|reflexivity].
        destruct (decimalPercentHere_occurs _ _ _ H') as (post' & -> & D').
        assert (String.length pre <= String.length pre'); [|lia].
        apply (First pre' (i' ++ "." ++ f')%string post'). now split. }
    rewrite S. now rewrite captured1_re.
Qed.

Lemma classify_plain_iff (line : QString) :
  classify line = PlainLine line <-> ~ containsDecimalPercent line.
Proof.
  unfold classify, QRegExp.match_. split.
  - destruct (QRegExp.search (QRegExp.atoms re) line) eqn:S; [discriminate|].
    intros _ (pre & c & post & E & D).
    pose proof (proj1 (search_None _ _) S pre (c ++ "%" ++ post)%string E) as M.
    rewrite matchHere_re in M.
    destruct (occurs_decimalPercentHere c post D) as (i & f & _ & H).
    rewrite H in M. discriminate.
  - intros N.
    assert (S : QRegExp.search (QRegExp.atoms re) line = None); [|now rewrite S].
    apply search_None. intros pre suf ->. rewrite matchHere_re.
    destruct (decimalPercentHere suf) as [[i f]|] eqn:H; [|reflexivity].
    destruct (decimalPercentHere_occurs _ _ _ H) as (post & -> & D).
    exfalso. apply N. exists pre, (i ++ "." ++ f)%string, post. now split.
Qed.

Lemma classify_progress_or_plain (line : QString) :
  (exists c, classify line = ProgressUpdate c) \/ classify line = PlainLine line.
Proof.
  unfold classify. destruct (QRegExp.match_ re line); [left; eauto | now right].
Qed.

(** C2. The classifier returns [ProgressUpdate] with the decimal number of
    the first occurrence when the line holds a decimal number followed by a
    percent sign, and [PlainLine] with the whole line when it holds none;
    the two lines the specification gives come out as it says. *)
Theorem classifier_rule :
  (forall line : QString,
     (forall c, classify line = ProgressUpdate c <-> firstDecimalPercent line c) /\
     (containsDecimalPercent line -> exists c, classify line = ProgressUpdate c) /\
     (~ containsDecimalPercent line -> classify line = PlainLine line)) /\
  classify "[download]  45.6% of 10.00MiB" = ProgressUpdate "45.6" /\
  classify "ERROR: unsupported URL" = PlainLine "ERROR: unsupported URL".
Proof.
  split; [|split; reflexivity].
  intros line. split; [|split].
  - intros c. apply classify_progress_iff.
  - intros C. destruct (classify_progress_or_plain line) as [|P]; [assumption|].
    apply classify_plain_iff in P. contradiction.
  - apply classify_plain_iff.
Qed.

(** C9. A line with a percentage that has no fraction, and no decimal
    number followed by a percent sign anywhere, is a [PlainLine]: the
    pattern asks for digits, a point and digits before the sign. *)
Theorem integer_percent_is_plain (line : QString) :
  containsIntegerPercent line ->
  ~ containsDecimalPercent line ->
  classify line = PlainLine line.
Proof.
  intros _ N. now apply classify_plain_iff.
Qed.

Lemma integer_percent_is_plain_witness :
  containsIntegerPercent "[download] 45% of 10MiB" /\
  ~ containsDecimalPercent "[download] 45% of 10MiB" /\
  classify "[download] 45% of 10MiB" = PlainLine "[download] 45% of 10MiB".
Proof.
  assert (I : containsIntegerPercent "[download] 45% of 10MiB").
  { exists "[download] ", "45", " of 10MiB". split; reflexivity. }
  assert (N : ~ containsDecimalPercent "[download] 45% of 10MiB").
  { intros C. apply hasDecimalPercent_spec in C. discriminate C. }
  split; [exact I | split; [exact N |]].
  exact (integer_percent_is_plain "[download] 45% of 10MiB" I N).
Defined.

(** * The command line *)

Lemma arg_outputTemplate (savePath : QString) :
  QStr.arg savePath "%1/%(title)s.%(ext)s" = outputTemplate savePath.
Proof. reflexivity. Qed.

Lemma outputTemplate_long (savePath : QString) :
  18 <= String.length (outputTemplate savePath).
Proof.
  unfold outputTemplate. rewrite length_append. simpl. lia.
Qed.

Lemma outputTemplate_no_flag (savePath flag : QString) :
  String.length flag = 2 -> outputTemplate savePath <> flag.
Proof.
  intros L E. pose proof (outputTemplate_long savePath) as B.
  rewrite E in B. lia.
Qed.

Lemma itemText_cases (items : list QString) (index : Z) :
  itemText items index = "" \/ In (itemText items index) items.
Proof.
  unfold itemText. destruct (index <? 0)%Z; [now left|].
  destruct (nth_in_or_default (Z.to_nat index) items "") as [H|H];
    [now right | now left].
Qed.

Lemma audioQuality_values (index : Z) :
  In (QStr.first (QStr.split "kbps" (itemText audioQualityItems index)))
     ["320"; "256"; "128"; ""].
Proof.
  destruct (itemText_cases audioQualityItems index) as [->|H]; [simpl; tauto|].
  repeat (destruct H as [<-|H]; [simpl; tauto|]). destruct H.
Qed.

Lemma subtitle_lang_values (index : Z) :
  In (QStr.section ")" 0 0 (QStr.section "(" 1 1 (itemText subtitleLangItems index)))
     [""; "en"; "fr"; "es"; "de"; "it"; "pt"; "ru"; "ja"; "zh"; "ar"].
Proof.
  destruct (itemText_cases subtitleLangItems index) as [->|H]; [simpl; tauto|].
  repeat (destruct H as [<-|H]; [simpl; tauto|]). destruct H.
Qed.

Lemma formatArgs_video (videoIndex audioIndex : Z) :
  (videoIndex < 4)%Z ->
  formatArgs videoIndex audioIndex
  = ["-f"; videoFormat videoIndex; "--merge-output-format"; "mp4"].
Proof.
  intros H. unfold formatArgs. now rewrite (proj2 (Z.ltb_lt _ _) H).
Qed.

Lemma formatArgs_audio (videoIndex audioIndex : Z) :
  (4 <= videoIndex)%Z ->
  formatArgs videoIndex audioIndex
  = ["-x"; "--audio-format"; "mp3"; "--audio-quality";
     QStr.first (QStr.split "kbps" (itemText audioQualityItems audioIndex))].
Proof.
  intros H. unfold formatArgs. now rewrite (proj2 (Z.ltb_ge _ _) H).
Qed.

Lemma videoFormat_values (videoIndex : Z) :
  In (videoFormat videoIndex)
     [heightCap 2160; heightCap 1080; heightCap 720; heightCap 480; ""].
Proof.
  destruct videoIndex as [|[[[]|[]|]|[[]|[]|]|]|]; simpl; tauto.
Qed.

(** The tokens [startDownload] puts before the URL. *)
Lemma downloadArgs_options (url savePath : QString) (videoIndex audioIndex subIndex : Z)
    (sponsorBlock : bool) :
  downloadArgs url savePath videoIndex audioIndex subIndex sponsorBlock
  = ((["-o"; outputTemplate savePath] ++ formatArgs videoIndex audioIndex
      ++ subtitleArgs subIndex ++ sponsorBlockArgs sponsorBlock) ++ [url])%list.
Proof.
  unfold downloadArgs. rewrite arg_outputTemplate.
  now rewrite <- !app_assoc.
Qed.

Lemma subtitleArgs_flags (subIndex : Z) (flag : QString) :
  flag = "-x" \/ flag = "-f" -> ~ In flag (subtitleArgs subIndex).
Proof.
  intros F. unfold subtitleArgs. destruct (subIndex >? 0)%Z; [|now simpl].
  pose proof (subtitle_lang_values subIndex) as V.
  remember (QStr.section ")" 0 0 _) as lang eqn:E. clear E.
  simpl in V |- *. intuition (subst; discriminate).
Qed.

Lemma sponsorBlockArgs_flags (checked : bool) (flag : QString) :
  flag = "-x" \/ flag = "-f" -> ~ In flag (sponsorBlockArgs checked).
Proof.
  intros F. destruct checked; simpl; intuition (subst; discriminate).
Qed.

Lemma formatArgs_not_both (videoIndex audioIndex : Z) :
  ~ (In "-x" (formatArgs videoIndex audioIndex) /\
     In "-f" (formatArgs videoIndex audioIndex)).
Proof.
  destruct (Z.lt_ge_cases videoIndex 4) as [H|H].
  - rewrite (formatArgs_video _ _ H).
    pose proof (videoFormat_values videoIndex) as V.
    remember (videoFormat videoIndex) as fmt eqn:E. clear E.
    simpl in V |- *. intros [X _]. intuition (subst; discriminate).
  - rewrite (formatArgs_audio _ _ H).
    pose proof (audioQuality_values audioIndex) as V.
    remember (QStr.first _) as q eqn:E. clear E.
    simpl in V |- *. intros [_ F]. intuition (subst; discriminate).
Qed.

(** C6. The tokens put before the URL never hold both [-x] and [-f]; the
    URL is the last token, and when it is not itself one of the two flags
    the whole argument list never holds both. *)
Theorem never_both_extract_and_format (url savePath : QString)
    (videoIndex audioIndex subIndex : Z) (sponsorBlock : bool) :
  let args := downloadArgs url savePath videoIndex audioIndex subIndex sponsorBlock in
  last args "" = url /\
  ~ (In "-x" (removelast args) /\ In "-f" (removelast args)) /\
  (url <> "-x" -> url <> "-f" -> ~ (In "-x" args /\ In "-f" args)).
Proof.
  cbv zeta. rewrite downloadArgs_options. rewrite last_last, removelast_last.
  assert (N : forall flag, flag = "-x" \/ flag = "-f" ->
    In flag (["-o"; outputTemplate savePath] ++ formatArgs videoIndex audioIndex
             ++ subtitleArgs subIndex ++ sponsorBlockArgs sponsorBlock)%list ->
    In flag (formatArgs videoIndex audioIndex)).
  { intros flag F I. rewrite !in_app_iff in I.
    destruct I as [I|[I|[I|I]]].
    - exfalso. destruct I as [I|[I|[]]].
      + destruct F; subst; discriminate.
      + apply (outputTemplate_no_flag savePath flag); [|exact I].
        destruct F; now subst.
    - exact I.
    - now apply subtitleArgs_flags in I.
    - now apply sponsorBlockArgs_flags in I. }
  split; [reflexivity|]. split.
  - intros [X F]. apply (formatArgs_not_both videoIndex audioIndex).
    split; apply N; auto.
  - intros Ux Uf [X F]. apply (formatArgs_not_both videoIndex audioIndex).
    rewrite in_app_iff in X, F.
    destruct X as [X|[X|[]]]; [|congruence].
    destruct F as [F|[F|[]]]; [|congruence].
    split; apply N; auto.
Qed.

(** C7. For the tiers 4K, 1080p, 720p and 480p (items 0 to 3 of the video
    combo box) the format expression after [-f] caps the height at 2160,
    1080, 720 and 480 pixels. *)
Theorem video_tiers_cap_height (url savePath : QString) (audioIndex subIndex : Z)
    (sponsorBlock : bool) :
  let args (videoIndex : Z) :=
    downloadArgs url savePath videoIndex audioIndex subIndex sponsorBlock in
  let emitted (h : Z) :=
    (["-o"; outputTemplate savePath;
      "-f"; heightCap h; "--merge-output-format"; "mp4"]
     ++ subtitleArgs subIndex ++ sponsorBlockArgs sponsorBlock ++ [url])%list in
  (itemText videoQualityItems 0 = "4K (2160p)" /\ args 0%Z = emitted 2160%Z) /\
  (itemText videoQualityItems 1 = "1080p" /\ args 1%Z = emitted 1080%Z) /\
  (itemText videoQualityItems 2 = "720p" /\ args 2%Z = emitted 720%Z) /\
  (itemText videoQualityItems 3 = "480p" /\ args 3%Z = emitted 480%Z).
Proof.
  cbv zeta. unfold downloadArgs. rewrite arg_outputTemplate.
  repeat split.
Qed.

(** C8. With the video choice [None] (item 4) the arguments ask for audio
    extraction to mp3, and the quality argument is the number of the chosen
    bitrate item: 320, 256 or 128; for "256kbps" it is "256". *)
Theorem audio_only_bitrate (url savePath : QString) (subIndex : Z) (sponsorBlock : bool) :
  let args (audioIndex : Z) :=
    downloadArgs url savePath 4 audioIndex subIndex sponsorBlock in
  let emitted (quality : QString) :=
    (["-o"; outputTemplate savePath;
      "-x"; "--audio-format"; "mp3"; "--audio-quality"; quality]
     ++ subtitleArgs subIndex ++ sponsorBlockArgs sponsorBlock ++ [url])%list in
  itemText videoQualityItems 4 = "None" /\
  (forall audioIndex n,
     In (audioIndex, n) [(0, 320); (1, 256); (2, 128)]%Z ->
     itemText audioQualityItems audioIndex = QStr.number n ++ "kbps" /\
     args audioIndex = emitted (QStr.number n)) /\
  (itemText audioQualityItems 1 = "256kbps" /\ args 1%Z = emitted "256").
Proof.
  cbv zeta. unfold downloadArgs. rewrite arg_outputTemplate.
  split; [reflexivity|]. split; [|split; reflexivity].
  intros audioIndex n H.
  destruct H as [[= <- <-]|[[= <- <-]|[[= <- <-]|[]]]]; split; reflexivity.
Qed.

(** C10. While the video choice is one of the tiers (the source's test is
    [videoIndex < 4]) the audio bitrate choice does not reach the command
    line. *)
Theorem audio_bitrate_unused_for_video (url savePath : QString)
    (videoIndex audioIndex audioIndex' subIndex : Z) (sponsorBlock : bool) :
  (videoIndex < 4)%Z ->
  downloadArgs url savePath videoIndex audioIndex subIndex sponsorBlock
  = downloadArgs url savePath videoIndex audioIndex' subIndex sponsorBlock.
Proof.
  intros H. unfold downloadArgs. now rewrite !(formatArgs_video _ _ H).
Qed.

Lemma audio_bitrate_unused_for_video_witness :
  (1 < 4)%Z /\
  downloadArgs "https://youtu.be/v" "/home/me/Videos" 1 0 1 false
  = downloadArgs "https://youtu.be/v" "/home/me/Videos" 1 2 1 false.
Proof.
  split; [reflexivity|].
  apply (audio_bitrate_unused_for_video
           "https://youtu.be/v" "/home/me/Videos" 1 0 2 1 false).
  reflexivity.
Defined.

(** * The slots *)

Lemma arg_downloading (url : QString) :
  QStr.arg url "Downloading URL: %1" = "Downloading URL: " ++ url.
Proof.
  unfold QStr.arg. simpl. now rewrite append_nil_r.
Qed.

Lemma arg_progress (percentage : QString) :
  QStr.arg percentage "Progress: %1" = "Progress: " ++ percentage.
Proof.
  unfold QStr.arg. simpl. now rewrite append_nil_r.
Qed.

Lemma startDownload_paths (parseUrl : QString -> QUrl)
    (fromJson : QString -> QJson.Document) (world : World) (s : State) :
  startDownload parseUrl fromJson world s
  = startDownloadPaths parseUrl fromJson world s.
Proof.
  unfold startDownload, startDownloadPaths, missingInput, schemeDeclined,
    probeTrace, schemeQuestioned, multiItemQuestion, metadata, probe, multiQuestion,
    schemeQuestion.
  destruct s as [w tr]. slot_cbn.
  destruct (QStr.isEmpty (urlEdit w) || QStr.isEmpty (savePathEdit w)); slot_cbn;
    [reflexivity|].
  destruct (isValid (parseUrl (urlEdit w))
            && negb (QStr.startsWith "http" (scheme (parseUrl (urlEdit w)))));
    slot_cbn;
    [destruct (isNo (answer world "Warning" _)); slot_cbn; [reflexivity|] | ].
  all: rewrite <- ?app_assoc; cbn [app].
  all: destruct (negb (exitCode (execute world "yt-dlp" _) =? 0)%Z); slot_cbn;
    [reflexivity|].
  all: destruct (QJson.isNull _); slot_cbn; [reflexivity|].
  all: destruct (QJson.contains "entries" _ && QJson.isArray _); slot_cbn.
  all: try destruct (QJson.size _ >? 1)%Z; slot_cbn.
  all: try destruct (isNo (answer world "Multiple Videos Detected" _)); slot_cbn.
  all: rewrite <- ?app_assoc; cbn [app]; rewrite ?arg_downloading.
  all: try reflexivity.
Qed.

Lemma run_next (slot : Slot unit) (s s' : State) :
  slot s = (Next tt, s') -> run slot s = Some s'.
Proof. unfold run. now intros ->. Qed.

Lemma run_returned (slot : Slot unit) (s s' : State) :
  slot s = (Returned, s') -> run slot s = Some s'.
Proof. unfold run. now intros ->. Qed.

Lemma processError_run (errorString : QString) (s : State) :
  run (processError errorString) s
  = match process (win s) with
    | Some _ =>
        Some (mkState
                (setProcess None
                   (failed ("Failed to start download: " ++ errorString) (win s)))
                (trace s))
    | None => None
    end.
Proof.
  destruct s as [w tr]. unfold run, processError. slot_cbn.
  destruct (process w); reflexivity.
Qed.

Lemma processFinished_run (code : Z) (s : State) :
  run (processFinished code) s
  = match process (win s) with
    | Some _ =>
        Some (mkState
                (setProcess None
                   (failed (if (code =? 0)%Z then "Download Complete"
                            else "Download Failed") (win s)))
                (trace s))
    | None => None
    end.
Proof.
  destruct s as [w tr]. unfold run, processFinished. slot_cbn.
  destruct (process w); reflexivity.
Qed.

(** [readProcessOutput] shows the lines of a chunk with a flag that, once
    set, stays set. *)
Lemma readProcessOutput_run (output : QString) (s : State) :
  run (readProcessOutput output) s
  = match process (win s) with
    | Some _ => Some (mkState (rendered (classifiedLines output) (win s)) (trace s))
    | None => None
    end.
Proof.
  destruct s as [w tr]. unfold run, readProcessOutput, classifiedLines.
  cbv beta iota zeta delta [bind deref win trace].
  destruct (process w) as [p|]; [|reflexivity]. clear p.
  generalize (QStr.splitSkipEmpty "010" output). intros ls.
  match goal with
  | |- context [forEach ls ?body] =>
      enough (E : forall (l : list QString) (w : Window),
                 forEach l body (mkState w tr)
                 = (Next tt,
                    mkState
                      (rendered (map (fun line => classify (QStr.trimmed line)) l) w)
                      tr))
        by now rewrite E
  end.
  clear. induction l as [|line l IH]; intros w.
  - destruct w. reflexivity.
  - cbn [forEach map]. unfold bind at 1.
    destruct (classify (QStr.trimmed line)) as [percentage|t] eqn:C.
    + rewrite arg_progress. slot_cbn.
      destruct (hasProgressLine w) eqn:H; slot_cbn; rewrite IH;
        unfold rendered; cbn [renderSticky]; slot_cbn; rewrite H; reflexivity.
    + slot_cbn. rewrite IH. unfold rendered. cbn [renderSticky]. slot_cbn.
      reflexivity.
Qed.

(** ** The log view *)

Lemma sampleWindow_reachable (fromJson : QString -> QJson.Document) :
  reachable httpsUrl fromJson (mkState sampleWindow []).
Proof.
  apply (reachable_step _ _ (mkState (newWindow "/home/me/Videos") []) _
           (UrlEdited "https://youtu.be/v")).
  - apply reachable_new.
  - constructor; reflexivity.
Qed.

Lemma sampleDownload_step :
  step httpsUrl playlistJson (mkState sampleWindow [])
    (DownloadClicked agreeingUser) sampleDownload.
Proof. constructor; reflexivity. Qed.

Lemma sampleDownload_reachable : reachable httpsUrl playlistJson sampleDownload.
Proof.
  exact (reachable_step _ _ _ _ _ (sampleWindow_reachable _) sampleDownload_step).
Qed.


Lemma renderSticky_plain (h h' : bool) (log : QTextEdit.Document) (ls : list Classified) :
  forallb isPlain ls = true ->
  snd (renderSticky h log ls) = renderContract h' log ls.
Proof.
  revert h' log. induction ls as [|[p|t] ls IH]; intros h' log H; simpl in *.
  - reflexivity.
  - discriminate.
  - now apply IH.
Qed.

(** Up to the first plain line that follows a progress line, the slot
    renders as the contract says. *)
Lemma contract_met_while_settled (h : bool) (log : QTextEdit.Document)
    (ls : list Classified) :
  settled h ls = true ->
  snd (renderSticky h log ls) = renderContract h log ls.
Proof.
  revert h log. induction ls as [|[p|t] ls IH]; intros h log H; simpl in *.
  - reflexivity.
  - now apply IH.
  - destruct h.
    + now apply renderSticky_plain.
    + now apply IH.
Qed.

(** C1 (where the slot departs from the contract). A video and then an
    audio download print a plain line between two progress lines; the slot
    overwrites that plain line with the second progress line, where the
    contract starts a new line. *)
Theorem progress_overwrites_plain_line :
  reachable httpsUrl playlistJson sampleDownload /\
  classifiedLines sampleOutput
  = [ProgressUpdate "10.0"; PlainLine "[download] Destination: v.m4a";
     ProgressUpdate "20.0"] /\
  option_map (fun s => progressOutput (win s))
    (run (readProcessOutput sampleOutput) sampleDownload)
  = Some ["Downloading URL: https://youtu.be/v"; "Progress: 10.0"; "Progress: 20.0"] /\
  renderContract false (progressOutput (win sampleDownload))
    (classifiedLines sampleOutput)
  = ["Downloading URL: https://youtu.be/v"; "Progress: 10.0";
     "[download] Destination: v.m4a"; "Progress: 20.0"].
Proof.
  split; [exact sampleDownload_reachable|].
  split; [|split]; vm_compute; reflexivity.
Qed.

(** The specification's example: three chunks, a plain line and two
    progress updates, render as two lines after the heading, the second
    showing 55.0. *)
Lemma three_chunks_two_lines :
  option_map (fun s => progressOutput (win s))
    (deliver httpsUrl playlistJson
       [ReadyReadStandardOutput (chunk ["[youtube] v: Downloading webpage"]);
        ReadyReadStandardOutput (chunk ["[download]  10.0% of 5.00MiB"]);
        ReadyReadStandardOutput (chunk ["[download]  55.0% of 5.00MiB"])]
       sampleDownload)
  = Some ["Downloading URL: https://youtu.be/v";
          "[youtube] v: Downloading webpage"; "Progress: 55.0"].
Proof. vm_compute. reflexivity. Qed.

(** ** The paths through [startDownload] *)

Section PathFacts.

Variable parseUrl : QString -> QUrl.
Variable fromJson : QString -> QJson.Document.
Variable world : World.
Variable s : State.

Lemma spawned_app (tr tr' : list Effect) :
  spawned (tr ++ tr')%list = (spawned tr ++ spawned tr')%list.
Proof. apply flat_map_app. Qed.

Lemma asked_app (tr tr' : list Effect) :
  asked (tr ++ tr')%list = (asked tr ++ asked tr')%list.
Proof. apply flat_map_app. Qed.

Lemma spawned_probeTrace : spawned (probeTrace parseUrl (win s)) = [].
Proof. unfold probeTrace. now destruct (schemeQuestioned parseUrl (win s)). Qed.

Lemma probed_true :
  probed parseUrl world (win s) = true ->
  missingInput (win s) = false /\ schemeDeclined parseUrl world (win s) = false.
Proof.
  unfold probed. rewrite andb_true_iff, !negb_true_iff. tauto.
Qed.

Lemma path_probe_failed :
  probed parseUrl world (win s) = true ->
  exitCode (probe world (win s)) <> 0%Z ->
  startDownload parseUrl fromJson world s
  = (Returned,
     mkState (failed ("Failed to get metadata: " ++ standardError (probe world (win s))) (win s))
       (trace s ++ probeTrace parseUrl (win s))).
Proof.
  intros P X. apply probed_true in P as [M D]. apply Z.eqb_neq in X.
  rewrite startDownload_paths. unfold startDownloadPaths. cbv zeta.
  now rewrite M, D, X.
Qed.

Lemma path_invalid_metadata :
  probed parseUrl world (win s) = true ->
  exitCode (probe world (win s)) = 0%Z ->
  QJson.isNull (fromJson (standardOutput (probe world (win s)))) = true ->
  startDownload parseUrl fromJson world s
  = (Returned,
     mkState (failed "Invalid metadata from yt-dlp" (win s))
       (trace s ++ probeTrace parseUrl (win s))).
Proof.
  intros P X N. apply probed_true in P as [M D].
  rewrite startDownload_paths. unfold startDownloadPaths. cbv zeta.
  now rewrite M, D, X, N.
Qed.

Lemma path_declined (question : QString) :
  probed parseUrl world (win s) = true ->
  exitCode (probe world (win s)) = 0%Z ->
  QJson.isNull (fromJson (standardOutput (probe world (win s)))) = false ->
  multiItemQuestion (metadata fromJson world (win s)) = Some question ->
  answer world "Multiple Videos Detected" question = No ->
  startDownload parseUrl fromJson world s
  = (Returned,
     mkState (win s)
       ((trace s ++ probeTrace parseUrl (win s))
        ++ [Warning "Multiple Videos Detected" question])).
Proof.
  intros P X N Q A. apply probed_true in P as [M D].
  rewrite startDownload_paths. unfold startDownloadPaths. cbv zeta.
  now rewrite M, D, X, N, Q, A.
Qed.

Lemma path_agreed (question : QString) :
  probed parseUrl world (win s) = true ->
  exitCode (probe world (win s)) = 0%Z ->
  QJson.isNull (fromJson (standardOutput (probe world (win s)))) = false ->
  multiItemQuestion (metadata fromJson world (win s)) = Some question ->
  answer world "Multiple Videos Detected" question = Yes ->
  startDownload parseUrl fromJson world s
  = (Next tt,
     mkState (downloading (windowArgs (win s)) (win s))
       (((trace s ++ probeTrace parseUrl (win s))
         ++ [Warning "Multiple Videos Detected" question])
        ++ [Started (mkProcess "yt-dlp" (windowArgs (win s)))])).
Proof.
  intros P X N Q A. apply probed_true in P as [M D].
  rewrite startDownload_paths. unfold startDownloadPaths. cbv zeta.
  now rewrite M, D, X, N, Q, A.
Qed.

Lemma path_direct :
  probed parseUrl world (win s) = true ->
  exitCode (probe world (win s)) = 0%Z ->
  QJson.isNull (fromJson (standardOutput (probe world (win s)))) = false ->
  multiItemQuestion (metadata fromJson world (win s)) = None ->
  startDownload parseUrl fromJson world s
  = (Next tt,
     mkState (downloading (windowArgs (win s)) (win s))
       ((trace s ++ probeTrace parseUrl (win s))
        ++ [Started (mkProcess "yt-dlp" (windowArgs (win s)))])).
Proof.
  intros P X N Q. apply probed_true in P as [M D].
  rewrite startDownload_paths. unfold startDownloadPaths. cbv zeta.
  now rewrite M, D, X, N, Q.
Qed.

End PathFacts.

Lemma value_contains (key : QString) (o : list (QString * QJson.Value))
    (items : list QJson.Value) :
  QJson.value key o = QJson.Array items -> QJson.contains key o = true.
Proof.
  induction o as [|[k v] o IH]; simpl; [discriminate|].
  destruct (String.eqb k key); [reflexivity | exact IH].
Qed.

Lemma multiItemQuestion_many (json : list (QString * QJson.Value))
    (entries : list QJson.Value) :
  QJson.value "entries" json = QJson.Array entries ->
  (1 < QJson.size entries)%Z ->
  multiItemQuestion json
  = Some (multiQuestion (QJson.toString (QJson.value "title" json))
            (QJson.size entries)).
Proof.
  intros E L. unfold multiItemQuestion.
  rewrite (value_contains _ _ _ E), E. cbn [QJson.isArray QJson.toArray andb].
  now rewrite (proj2 (Z.gtb_lt _ _) L).
Qed.

Lemma multiItemQuestion_single (json : list (QString * QJson.Value)) :
  QJson.isArray (QJson.value "entries" json) = false \/
  (exists item, QJson.value "entries" json = QJson.Array [item]) ->
  multiItemQuestion json = None.
Proof.
  unfold multiItemQuestion. intros [N|(item & E)].
  - rewrite N. now rewrite andb_false_r.
  - rewrite E. cbn [QJson.isArray QJson.toArray QJson.size length Z.of_nat].
    now destruct (QJson.contains "entries" json).
Qed.

(** ** The text of the question about a collection *)

Lemma pieces_plain (t r : QString) :
  noPercent t = true ->
  QStr.pieces (t ++ r)
  = (map QStr.Lit (list_ascii_of_string t) ++ QStr.pieces r)%list.
Proof.
  induction t as [|c t IH]; intros H; [reflexivity|].
  cbn [noPercent] in H. apply andb_true_iff in H as [Hc Ht].
  cbn [String.append QStr.pieces list_ascii_of_string map app].
  now rewrite Hc, (IH Ht).
Qed.

Lemma lowestMarker_lits (l : list ascii) (ps : list QStr.Piece) :
  QStr.lowestMarker (map QStr.Lit l ++ ps)%list = QStr.lowestMarker ps.
Proof. induction l as [|c l IH]; [reflexivity | exact IH]. Qed.

Lemma fill_lits (m : nat) (a : QString) (l : list ascii) (ps : list QStr.Piece) :
  QStr.fill m a (map QStr.Lit l ++ ps)%list
  = string_of_list_ascii l ++ QStr.fill m a ps.
Proof.
  induction l as [|c l IH]; [reflexivity|]. simpl. now rewrite IH.
Qed.

Lemma noPercent_append (a b : QString) :
  noPercent a = true -> noPercent b = true -> noPercent (a ++ b) = true.
Proof.
  intros Ha Hb. induction a as [|c a IH]; [exact Hb|].
  cbn [noPercent String.append] in *. apply andb_true_iff in Ha as [Hc Ha].
  now rewrite Hc, (IH Ha).
Qed.

(** For a title with no percent sign the question reads the title and the
    number of items where the format string has its two markers. *)
Lemma multiQuestion_plain_title (title : QString) (count : Z) :
  noPercent title = true ->
  multiQuestion title count
  = "You are attempting to download '" ++ title ++ "' with "
    ++ QStr.number count ++ " videos. Are you sure?".
Proof.
  intros H. unfold multiQuestion.
  assert (E : QStr.arg title
                "You are attempting to download '%1' with %2 videos. Are you sure?"
              = ("You are attempting to download '" ++ title)
                ++ "' with %2 videos. Are you sure?").
  { unfold QStr.arg. simpl. reflexivity. }
  rewrite E. unfold QStr.arg.
  rewrite pieces_plain by (apply noPercent_append; [reflexivity | exact H]).
  rewrite lowestMarker_lits.
  replace (QStr.lowestMarker (QStr.pieces "' with %2 videos. Are you sure?"))
    with (Some 2) by (vm_compute; reflexivity).
  rewrite fill_lits, string_of_list_ascii_of_string, append_assoc.
  replace (QStr.pieces "' with %2 videos. Are you sure?")
    with (map QStr.Lit (list_ascii_of_string "' with ")
          ++ [QStr.Marker 2 "%2"]
          ++ map QStr.Lit (list_ascii_of_string " videos. Are you sure?"))%list
    by (vm_compute; reflexivity).
  rewrite fill_lits. cbn [app QStr.fill Nat.eqb].
  replace (map QStr.Lit (list_ascii_of_string " videos. Are you sure?"))
    with (map QStr.Lit (list_ascii_of_string " videos. Are you sure?") ++ [])%list
    by apply app_nil_r.
  rewrite fill_lits. reflexivity.
Qed.

(** C3. When the probe ends with a status other than zero, the slot
    starts no download, appends the probe's standard error to the log
    between two separator lines, and leaves the button enabled with the
    label Download. *)
Theorem probe_failure_aborts (parseUrl : QString -> QUrl)
    (fromJson : QString -> QJson.Document) (world : World) (s : State) :
  probed parseUrl world (win s) = true ->
  exitCode (probe world (win s)) <> 0%Z ->
  exists s',
    run (startDownload parseUrl fromJson world) s = Some s' /\
    spawned (trace s') = spawned (trace s) /\
    process (win s') = process (win s) /\
    progressOutput (win s')
    = banner ("Failed to get metadata: " ++ standardError (probe world (win s)))
        (progressOutput (win s)) /\
    downloadButton (win s') = mkButton "Download" true.
Proof.
  intros P X. eexists. split.
  - apply run_returned. now apply path_probe_failed.
  - cbn [win trace]. rewrite spawned_app, spawned_probeTrace, app_nil_r.
    repeat split.
Qed.

Lemma probe_failure_aborts_witness :
  probed httpsUrl failingProbe sampleWindow = true /\
  exitCode (probe failingProbe sampleWindow) <> 0%Z /\
  exists s',
    run (startDownload httpsUrl playlistJson failingProbe) (mkState sampleWindow [])
    = Some s' /\
    spawned (trace s') = [] /\
    process (win s') = None /\
    progressOutput (win s')
    = ["---------------------";
       "Failed to get metadata: ERROR: Unsupported URL";
       "---------------------"] /\
    downloadButton (win s') = mkButton "Download" true.
Proof.
  split; [reflexivity|]. split; [discriminate|].
  apply (probe_failure_aborts httpsUrl playlistJson failingProbe
           (mkState sampleWindow [])); [reflexivity | discriminate].
Defined.

(** What the slot does around the question, for every probe result that
    parses.  Metadata with an entries list of more than one item makes the
    slot ask one question, the text being the source's chained [arg]
    expression of the declared title and the number of items; when the
    answer is No the window is as it was and no download is started.
    Metadata with no entries list, or with a list of one item, starts the
    download without that question.  What the text reads is the matter of
    the lemmas after this one. *)
Lemma multi_item_confirmation (parseUrl : QString -> QUrl)
    (fromJson : QString -> QJson.Document) (world : World) (s : State) :
  probed parseUrl world (win s) = true ->
  exitCode (probe world (win s)) = 0%Z ->
  QJson.isNull (fromJson (standardOutput (probe world (win s)))) = false ->
  (forall entries : list QJson.Value,
     QJson.value "entries" (metadata fromJson world (win s)) = QJson.Array entries ->
     (1 < QJson.size entries)%Z ->
     let question :=
       multiQuestion
         (QJson.toString (QJson.value "title" (metadata fromJson world (win s))))
         (QJson.size entries) in
     exists s',
       run (startDownload parseUrl fromJson world) s = Some s' /\
       asked (trace s')
       = (asked (trace s ++ probeTrace parseUrl (win s))
          ++ [("Multiple Videos Detected", question)])%list /\
       (answer world "Multiple Videos Detected" question = No ->
        win s' = win s /\ spawned (trace s') = spawned (trace s)) /\
       (answer world "Multiple Videos Detected" question = Yes ->
        win s' = downloading (windowArgs (win s)) (win s) /\
        spawned (trace s')
        = (spawned (trace s) ++ [mkProcess "yt-dlp" (windowArgs (win s))])%list)) /\
  (QJson.isArray (QJson.value "entries" (metadata fromJson world (win s))) = false \/
   (exists item,
      QJson.value "entries" (metadata fromJson world (win s)) = QJson.Array [item]) ->
   exists s',
     run (startDownload parseUrl fromJson world) s = Some s' /\
     asked (trace s') = asked (trace s ++ probeTrace parseUrl (win s)) /\
     win s' = downloading (windowArgs (win s)) (win s) /\
     spawned (trace s')
     = (spawned (trace s) ++ [mkProcess "yt-dlp" (windowArgs (win s))])%list).
Proof.
  intros P X N. split.
  - intros entries E L question.
    pose proof (multiItemQuestion_many _ _ E L) as Q. fold question in Q.
    destruct (answer world "Multiple Videos Detected" question) eqn:A.
    + eexists. split; [apply run_next; now apply (path_agreed _ _ _ _ question)|].
      cbn [win trace]. rewrite !asked_app, !spawned_app, spawned_probeTrace.
      cbn [asked spawned flat_map app]. rewrite !app_nil_r.
      repeat split; discriminate.
    + eexists. split; [apply run_returned; now apply (path_declined _ _ _ _ question)|].
      cbn [win trace]. rewrite !asked_app, !spawned_app, spawned_probeTrace.
      cbn [asked spawned flat_map app]. rewrite !app_nil_r.
      repeat split; discriminate.
  - intros S. apply multiItemQuestion_single in S.
    eexists. split; [apply run_next; now apply path_direct|].
    cbn [win trace]. rewrite !asked_app, !spawned_app, spawned_probeTrace.
    cbn [asked spawned flat_map app]. rewrite !app_nil_r.
    repeat split.
Qed.

Lemma multi_item_confirmation_witness :
  (probed httpsUrl decliningUser sampleWindow = true /\
   exitCode (probe decliningUser sampleWindow) = 0%Z /\
   QJson.isNull (playlistJson (standardOutput (probe decliningUser sampleWindow)))
   = false /\
   exists s',
     run (startDownload httpsUrl playlistJson decliningUser) (mkState sampleWindow [])
     = Some s' /\
     asked (trace s')
     = [("Multiple Videos Detected",
         "You are attempting to download 'Mix' with 3 videos. Are you sure?")] /\
     win s' = sampleWindow /\
     spawned (trace s') = []) /\
  (exists s',
     run (startDownload httpsUrl videoJson decliningUser) (mkState sampleWindow [])
     = Some s' /\
     asked (trace s') = [] /\
     win s' = downloading (windowArgs sampleWindow) sampleWindow /\
     spawned (trace s') = [mkProcess "yt-dlp" (windowArgs sampleWindow)]).
Proof.
  split.
  - split; [reflexivity|]. split; [reflexivity|]. split; [reflexivity|].
    destruct (multi_item_confirmation httpsUrl playlistJson decliningUser
                (mkState sampleWindow []) eq_refl eq_refl eq_refl) as [Many _].
    destruct (Many [QJson.Null; QJson.Null; QJson.Null] eq_refl eq_refl)
      as (s' & R & A & Declined & _).
    destruct (Declined eq_refl) as [W S].
    exists s'. repeat split; assumption.
  - destruct (multi_item_confirmation httpsUrl videoJson decliningUser
                (mkState sampleWindow []) eq_refl eq_refl eq_refl) as [_ Single].
    apply Single. left. reflexivity.
Defined.

(** ** What the question reads *)

Lemma prefix_append (p r : QString) : prefix p (p ++ r) = true.
Proof.
  induction p as [|c p IH]; [now destruct r|].
  cbn [String.append prefix]. destruct (ascii_dec c c); [exact IH | congruence].
Qed.

Lemma includes_prefix (part whole : QString) :
  prefix part whole = true -> includes part whole = true.
Proof. intros H. destruct whole; cbn [includes]; now rewrite H. Qed.

Lemma includes_append (part a b : QString) :
  includes part (a ++ part ++ b) = true.
Proof.
  induction a as [|c a IH].
  - cbn [String.append]. apply includes_prefix, prefix_append.
  - cbn [String.append includes]. rewrite IH. apply orb_true_r.
Qed.

(** For a title with no percent sign the question includes the declared
    title and the number of items. *)
Lemma question_includes_plain_title (title : QString) (count : Z) :
  noPercent title = true ->
  includes title (multiQuestion title count) = true /\
  includes (QStr.number count) (multiQuestion title count) = true.
Proof.
  intros H. rewrite (multiQuestion_plain_title title count H). split.
  - apply includes_append.
  - rewrite <- (append_assoc "You are attempting to download '" title).
    rewrite <- (append_assoc _ "' with ").
    apply includes_append.
Qed.

(** A title that is itself a place marker is replaced by the number of
    items, and the marker meant for the number is left in the text. *)
Lemma question_of_marker_title :
  multiQuestion "%1" 3
  = "You are attempting to download '3' with %2 videos. Are you sure?".
Proof. vm_compute. reflexivity. Qed.

(** C4 (where the slot departs from the specification). The probe
    result is a collection of three items whose declared title is A%2FB,
    a title with an encoded slash.  The slot asks for confirmation, but
    the question it shows reads A3FB for the title: the second [arg] of
    line 197 fills the marker %2 inside the title it has just inserted.
    The question does not include the declared title. *)
Theorem question_omits_marked_title (parseUrl : QString -> QUrl)
    (fromJson : QString -> QJson.Document) (world : World) (s : State)
    (entries : list QJson.Value) :
  probed parseUrl world (win s) = true ->
  exitCode (probe world (win s)) = 0%Z ->
  QJson.isNull (fromJson (standardOutput (probe world (win s)))) = false ->
  QJson.value "title" (metadata fromJson world (win s)) = QJson.Str "A%2FB" ->
  QJson.value "entries" (metadata fromJson world (win s)) = QJson.Array entries ->
  QJson.size entries = 3%Z ->
  exists s' question,
    run (startDownload parseUrl fromJson world) s = Some s' /\
    asked (trace s')
    = (asked (trace s ++ probeTrace parseUrl (win s))
       ++ [("Multiple Videos Detected", question)])%list /\
    question = "You are attempting to download 'A3FB' with 3 videos. Are you sure?" /\
    includes "A%2FB" question = false /\
    includes "3" question = true.
Proof.
  intros P X N T E L.
  destruct (multi_item_confirmation parseUrl fromJson world s P X N) as [Many _].
  assert (L' : (1 < QJson.size entries)%Z) by lia.
  destruct (Many entries E L') as (s' & R & A & _).
  rewrite T, L in A. cbn [QJson.toString] in A.
  replace (multiQuestion "A%2FB" 3)
    with "You are attempting to download 'A3FB' with 3 videos. Are you sure?"
    in A by (vm_compute; reflexivity).
  exists s', "You are attempting to download 'A3FB' with 3 videos. Are you sure?".
  split; [exact R|]. split; [exact A|]. split; [reflexivity|].
  split; vm_compute; reflexivity.
Qed.

Lemma question_omits_marked_title_witness :
  reachable httpsUrl encodedTitleJson (mkState sampleWindow []) /\
  QJson.toString
    (QJson.value "title" (metadata encodedTitleJson agreeingUser sampleWindow))
  = "A%2FB" /\
  exists s' question,
    run (startDownload httpsUrl encodedTitleJson agreeingUser) (mkState sampleWindow [])
    = Some s' /\
    asked (trace s') = [("Multiple Videos Detected", question)] /\
    question = "You are attempting to download 'A3FB' with 3 videos. Are you sure?" /\
    includes "A%2FB" question = false /\
    includes "3" question = true.
Proof.
  split; [apply sampleWindow_reachable|]. split; [reflexivity|].
  exact (question_omits_marked_title httpsUrl encodedTitleJson agreeingUser
           (mkState sampleWindow []) [QJson.Null; QJson.Null; QJson.Null]
           eq_refl eq_refl eq_refl eq_refl eq_refl eq_refl).
Defined.

(** ** One child process at a time *)

Section Supervision.

Variable parseUrl : QString -> QUrl.
Variable fromJson : QString -> QJson.Document.

Lemma startDownload_outcome (world : World) (s : State) :
  exists s',
    run (startDownload parseUrl fromJson world) s = Some s' /\
    (win s' = win s \/
     (exists message, win s' = failed message (win s)) \/
     enabled (downloadButton (win s')) = false).
Proof.
  unfold run. rewrite startDownload_paths. unfold startDownloadPaths. cbv zeta.
  repeat match goal with
         | |- context [if ?b then _ else _] => destruct b
         | |- context [match multiItemQuestion ?j with _ => _ end] =>
             destruct (multiItemQuestion j)
         end;
    eexists; (split; [reflexivity|]); cbn [win]; eauto.
Qed.

Lemma failed_oneProcess (message : QString) (w : Window) :
  enabled (downloadButton w) = true -> oneProcess w -> oneProcess (failed message w).
Proof. intros E I _. exact (I E). Qed.

Lemma handle_oneProcess (e : Event) (s s' : State) :
  step parseUrl fromJson s e s' -> oneProcess (win s) -> oneProcess (win s').
Proof.
  intros [s0 s1 e0 D R] I. destruct e0; cbn [handle deliverable] in *.
  1-5: injection R as <-; exact I.
  - unfold run, chooseFolder, when in R.
    destruct (negb (QStr.isEmpty folder)); injection R as <-; exact I.
  - destruct (startDownload_outcome world s0) as (s2 & R' & [W|[(m & W)|W]]);
      rewrite R' in R; injection R as <-.
    + now rewrite W.
    + rewrite W. now apply failed_oneProcess.
    + intros E. congruence.
  - rewrite processError_run in R.
    destruct (process (win s0)); [|discriminate]. injection R as <-.
    intros _. reflexivity.
  - rewrite readProcessOutput_run in R.
    destruct (process (win s0)); [|discriminate]. injection R as <-.
    exact I.
  - rewrite processFinished_run in R.
    destruct (process (win s0)); [|discriminate]. injection R as <-.
    intros _. reflexivity.
Qed.

(** In every state the window reaches, an enabled button means that no
    process is being supervised. *)
Lemma reachable_oneProcess (s : State) :
  reachable parseUrl fromJson s -> oneProcess (win s).
Proof.
  induction 1 as [defaultPath | s s' e _ IH St].
  - intros _. reflexivity.
  - exact (handle_oneProcess e s s' St IH).
Qed.

End Supervision.

(** The failures whose signal finds the process pointer set.  Each of them
    (the probe fails, its metadata does not parse, the process reports an
    error, the download ends with a status other than zero) is handled,
    and leaves the button enabled with the label Download and the process
    pointer null, so that a further click on the button is handled too.
    [befalls] asks of the two process signals that the pointer is not
    null; a crash, which sends both signals, is the matter of the theorem
    after this one. *)
Lemma failure_paths_allow_retry (parseUrl : QString -> QUrl)
    (fromJson : QString -> QJson.Document) (s : State) (f : Failure) :
  reachable parseUrl fromJson s ->
  befalls parseUrl fromJson f s ->
  exists s',
    step parseUrl fromJson s (failureEvent f) s' /\
    idle (win s') /\
    forall world, exists s'', step parseUrl fromJson s' (DownloadClicked world) s''.
Proof.
  intros R B. pose proof (reachable_oneProcess parseUrl fromJson s R) as I.
  assert (Retry : forall s', idle (win s') ->
            forall world, exists s'',
              step parseUrl fromJson s' (DownloadClicked world) s'').
  { intros s' [Bt _] world.
    destruct (startDownload_outcome parseUrl fromJson world s') as (s'' & R' & _).
    exists s''. constructor; [|exact R']. cbn [deliverable]. now rewrite Bt. }
  enough (exists s', step parseUrl fromJson s (failureEvent f) s' /\ idle (win s'))
    as (s' & St & Id) by (exists s'; auto).
  destruct f as [world|world|errorString|code]; cbn [befalls failureEvent] in *.
  - destruct B as (E & P & X). eexists. split.
    + constructor; [exact E|]. cbn [handle].
      apply run_returned. now apply path_probe_failed.
    + split; [reflexivity | exact (I E)].
  - destruct B as (E & P & X & N). eexists. split.
    + constructor; [exact E|]. cbn [handle].
      apply run_returned. now apply path_invalid_metadata.
    + split; [reflexivity | exact (I E)].
  - destruct (process (win s)) as [p|] eqn:P; [|congruence]. eexists. split.
    + constructor; [reflexivity|]. cbn [handle].
      rewrite processError_run, P. reflexivity.
    + split; reflexivity.
  - destruct B as (B & _).
    destruct (process (win s)) as [p|] eqn:P; [|congruence]. eexists. split.
    + constructor; [reflexivity|]. cbn [handle].
      rewrite processFinished_run, P. reflexivity.
    + split; reflexivity.
Qed.

Lemma failure_paths_allow_retry_witness :
  (befalls httpsUrl playlistJson (ProbeFailed failingProbe) (mkState sampleWindow []) /\
   exists s',
     step httpsUrl playlistJson (mkState sampleWindow [])
       (DownloadClicked failingProbe) s' /\
     idle (win s') /\
     forall world, exists s'', step httpsUrl playlistJson s' (DownloadClicked world) s'') /\
  (befalls httpsUrl noJson (InvalidMetadata agreeingUser) (mkState sampleWindow []) /\
   exists s',
     step httpsUrl noJson (mkState sampleWindow []) (DownloadClicked agreeingUser) s' /\
     idle (win s') /\
     forall world, exists s'', step httpsUrl noJson s' (DownloadClicked world) s'') /\
  (befalls httpsUrl playlistJson (SpawnError "No such file or directory")
     sampleDownload /\
   exists s',
     step httpsUrl playlistJson sampleDownload
       (ErrorOccurred "No such file or directory") s' /\
     idle (win s') /\
     forall world, exists s'', step httpsUrl playlistJson s' (DownloadClicked world) s'') /\
  (befalls httpsUrl playlistJson (DownloadFailed 1) sampleDownload /\
   exists s',
     step httpsUrl playlistJson sampleDownload (Finished 1) s' /\
     idle (win s') /\
     forall world, exists s'', step httpsUrl playlistJson s' (DownloadClicked world) s'').
Proof.
  assert (B1 : befalls httpsUrl playlistJson (ProbeFailed failingProbe)
                 (mkState sampleWindow [])).
  { repeat split. discriminate. }
  assert (B2 : befalls httpsUrl noJson (InvalidMetadata agreeingUser)
                 (mkState sampleWindow [])).
  { repeat split. }
  assert (B3 : befalls httpsUrl playlistJson (SpawnError "No such file or directory")
                 sampleDownload).
  { discriminate. }
  assert (B4 : befalls httpsUrl playlistJson (DownloadFailed 1) sampleDownload).
  { split; discriminate. }
  split; [|split; [|split]]; (split; [assumption|]).
  - exact (failure_paths_allow_retry httpsUrl playlistJson (mkState sampleWindow [])
             (ProbeFailed failingProbe) (sampleWindow_reachable _) B1).
  - exact (failure_paths_allow_retry httpsUrl noJson (mkState sampleWindow [])
             (InvalidMetadata agreeingUser) (sampleWindow_reachable _) B2).
  - exact (failure_paths_allow_retry httpsUrl playlistJson sampleDownload
             (SpawnError "No such file or directory") sampleDownload_reachable B3).
  - exact (failure_paths_allow_retry httpsUrl playlistJson sampleDownload
             (DownloadFailed 1) sampleDownload_reachable B4).
Defined.

(** C5 (where the slots depart from the specification). A download
    whose process crashes is a failure the slots do not survive.  The
    crash arrives as two signals.  [processError] handles the first and
    leaves the window as the specification asks, the button enabled and
    the process pointer null; [processFinished] then runs with that null
    pointer and, at line 310, dereferences it.  The two signals together
    lead to no state at all. *)
Theorem crash_dereferences_null (parseUrl : QString -> QUrl)
    (fromJson : QString -> QJson.Document) (s : State)
    (errorString : QString) (code : Z) :
  process (win s) <> None ->
  (exists s',
     step parseUrl fromJson s (ErrorOccurred errorString) s' /\
     idle (win s') /\
     deliverable (Finished code) (win s') = true /\
     run (processFinished code) s' = None) /\
  deliver parseUrl fromJson (crashSignals errorString code) s = None.
Proof.
  intros B. destruct (process (win s)) as [p|] eqn:P; [clear B | congruence].
  split.
  - eexists. split; [|split; [|split]].
    + constructor; [reflexivity|]. cbn [handle].
      rewrite processError_run, P. reflexivity.
    + split; reflexivity.
    + reflexivity.
    + now rewrite processFinished_run.
  - cbn [crashSignals deliver handle].
    rewrite processError_run, P. now rewrite processFinished_run.
Qed.

Lemma crash_dereferences_null_witness :
  reachable httpsUrl playlistJson sampleDownload /\
  process (win sampleDownload) <> None /\
  (exists s',
     step httpsUrl playlistJson sampleDownload (ErrorOccurred "Process crashed") s' /\
     idle (win s') /\
     deliverable (Finished 9) (win s') = true /\
     run (processFinished 9) s' = None) /\
  deliver httpsUrl playlistJson (crashSignals "Process crashed" 9) sampleDownload
  = None.
Proof.
  assert (B : process (win sampleDownload) <> None) by discriminate.
  split; [exact sampleDownload_reachable|]. split; [exact B|].
  exact (crash_dereferences_null httpsUrl playlistJson sampleDownload
           "Process crashed" 9 B).
Defined.

(** * Further properties of the slots *)

(** ** [startDownload] before and after the probe *)

(** X1. With no URL or no folder the slot shows the error box and does
    nothing else: no probe is run and the window is as it was. *)
Theorem missing_input_is_refused (parseUrl : QString -> QUrl)
    (fromJson : QString -> QJson.Document) (world : World) (s : State) :
  missingInput (win s) = true ->
  run (startDownload parseUrl fromJson world) s
  = Some (mkState (win s)
            (trace s ++ [Critical "Error" "Please provide a URL and save folder."])%list).
Proof.
  intros M. unfold run. rewrite startDownload_paths. unfold startDownloadPaths.
  cbv zeta. now rewrite M.
Qed.

Lemma missing_input_is_refused_witness :
  missingInput (newWindow "/home/me/Videos") = true /\
  run (startDownload httpsUrl playlistJson agreeingUser)
    (mkState (newWindow "/home/me/Videos") [])
  = Some (mkState (newWindow "/home/me/Videos")
            [Critical "Error" "Please provide a URL and save folder."]).
Proof.
  split; [reflexivity|].
  exact (missing_input_is_refused httpsUrl playlistJson agreeingUser
           (mkState (newWindow "/home/me/Videos") []) eq_refl).
Defined.

(** X2. When the URL is valid, its scheme does not begin with http and the
    user answers No, the slot has only asked its question: no probe is run
    and the window is as it was. *)
Theorem declined_scheme_question_aborts (parseUrl : QString -> QUrl)
    (fromJson : QString -> QJson.Document) (world : World) (s : State) :
  missingInput (win s) = false ->
  isValid (parseUrl (urlEdit (win s))) = true ->
  QStr.startsWith "http" (scheme (parseUrl (urlEdit (win s)))) = false ->
  answer world "Warning" schemeQuestion = No ->
  run (startDownload parseUrl fromJson world) s
  = Some (mkState (win s) (trace s ++ [Warning "Warning" schemeQuestion])%list).
Proof.
  intros M V P A. unfold run. rewrite startDownload_paths.
  unfold startDownloadPaths, schemeDeclined, schemeQuestioned. cbv zeta.
  now rewrite M, V, P, A.
Qed.

Lemma declined_scheme_question_aborts_witness :
  let ftp (url : QString) := mkUrl true "ftp" in
  let s := mkState sampleWindow [] in
  missingInput (win s) = false /\
  isValid (ftp (urlEdit (win s))) = true /\
  QStr.startsWith "http" (scheme (ftp (urlEdit (win s)))) = false /\
  answer decliningUser "Warning" schemeQuestion = No /\
  run (startDownload ftp playlistJson decliningUser) s
  = Some (mkState sampleWindow [Warning "Warning" schemeQuestion]).
Proof.
  cbv zeta. repeat (split; [reflexivity|]).
  exact (declined_scheme_question_aborts (fun _ => mkUrl true "ftp") playlistJson
           decliningUser (mkState sampleWindow []) eq_refl eq_refl eq_refl eq_refl).
Defined.

Lemma startDownload_after_probe (parseUrl : QString -> QUrl)
    (fromJson : QString -> QJson.Document) (world : World) (s : State) :
  probed parseUrl world (win s) = true ->
  exists s' more,
    run (startDownload parseUrl fromJson world) s = Some s' /\
    trace s' = ((trace s ++ probeTrace parseUrl (win s)) ++ more)%list.
Proof.
  intros P. apply probed_true in P as [M D].
  unfold run. rewrite startDownload_paths. unfold startDownloadPaths. cbv zeta.
  rewrite M, D.
  repeat match goal with
         | |- context [if ?b then _ else _] => destruct b
         | |- context [match multiItemQuestion ?j with _ => _ end] =>
             destruct (multiItemQuestion j)
         end;
    eexists; eexists; (split; [reflexivity|]); cbn [trace];
    rewrite <- ?app_assoc; try reflexivity.
  all: now rewrite app_nil_r.
Qed.

(** X3. A URL that does not parse as valid, or whose scheme begins with
    http (https, but any longer scheme with that prefix too), is not
    questioned: the first thing the slot does is run the probe on it. *)
Theorem http_scheme_goes_to_probe (parseUrl : QString -> QUrl)
    (fromJson : QString -> QJson.Document) (world : World) (s : State) :
  missingInput (win s) = false ->
  isValid (parseUrl (urlEdit (win s))) = false \/
  (exists rest, scheme (parseUrl (urlEdit (win s))) = "http" ++ rest) ->
  exists s' more,
    run (startDownload parseUrl fromJson world) s = Some s' /\
    trace s'
    = (trace s ++ Executed "yt-dlp" ["--dump-json"; urlEdit (win s)] :: more)%list.
Proof.
  intros M H.
  assert (Q : schemeQuestioned parseUrl (win s) = false).
  { unfold schemeQuestioned. destruct H as [V|(rest & E)].
    - now rewrite V.
    - rewrite E. cbn. destruct rest; apply andb_false_r. }
  assert (P : probed parseUrl world (win s) = true).
  { unfold probed, schemeDeclined. now rewrite M, Q. }
  destruct (startDownload_after_probe parseUrl fromJson world s P) as (s' & more & R & T).
  exists s', more. split; [exact R|].
  rewrite T. unfold probeTrace. rewrite Q. cbn [app]. now rewrite <- app_assoc.
Qed.

Lemma http_scheme_goes_to_probe_witness :
  let httpx (url : QString) := mkUrl true "httpx" in
  let s := mkState sampleWindow [] in
  missingInput (win s) = false /\
  (exists rest, scheme (httpx (urlEdit (win s))) = "http" ++ rest) /\
  exists s' more,
    run (startDownload httpx playlistJson decliningUser) s = Some s' /\
    trace s' = Executed "yt-dlp" ["--dump-json"; "https://youtu.be/v"] :: more.
Proof.
  cbv zeta. split; [reflexivity|]. split; [now exists "x"|].
  exact (http_scheme_goes_to_probe (fun _ => mkUrl true "httpx") playlistJson
           decliningUser (mkState sampleWindow []) eq_refl
           (or_intror (ex_intro _ "x" eq_refl))).
Defined.

(** X4. When the probe ends with status zero but its output does not
    parse, the slot starts no download, appends the line "Invalid metadata
    from yt-dlp" between two separator lines, and leaves the button enabled
    with the label Download. *)
Theorem invalid_metadata_aborts (parseUrl : QString -> QUrl)
    (fromJson : QString -> QJson.Document) (world : World) (s : State) :
  probed parseUrl world (win s) = true ->
  exitCode (probe world (win s)) = 0%Z ->
  QJson.isNull (fromJson (standardOutput (probe world (win s)))) = true ->
  exists s',
    run (startDownload parseUrl fromJson world) s = Some s' /\
    spawned (trace s') = spawned (trace s) /\
    process (win s') = process (win s) /\
    progressOutput (win s')
    = banner "Invalid metadata from yt-dlp" (progressOutput (win s)) /\
    downloadButton (win s') = mkButton "Download" true /\
    inputs (win s') = inputs (win s).
Proof.
  intros P X N. eexists. split.
  - apply run_returned. now apply path_invalid_metadata.
  - cbn [win trace]. rewrite spawned_app, spawned_probeTrace, app_nil_r.
    repeat split.
Qed.

Lemma invalid_metadata_aborts_witness :
  probed httpsUrl agreeingUser sampleWindow = true /\
  exitCode (probe agreeingUser sampleWindow) = 0%Z /\
  QJson.isNull (noJson (standardOutput (probe agreeingUser sampleWindow))) = true /\
  exists s',
    run (startDownload httpsUrl noJson agreeingUser) (mkState sampleWindow []) = Some s' /\
    spawned (trace s') = [] /\
    process (win s') = None /\
    progressOutput (win s')
    = ["---------------------"; "Invalid metadata from yt-dlp";
       "---------------------"] /\
    downloadButton (win s') = mkButton "Download" true /\
    inputs (win s') = inputs sampleWindow.
Proof.
  repeat (split; [reflexivity|]).
  exact (invalid_metadata_aborts httpsUrl noJson agreeingUser
           (mkState sampleWindow []) eq_refl eq_refl eq_refl).
Defined.

(** X5. The slot never starts a download it has not cleared: when a click
    adds a process to those started, the probe was run and ended with
    status zero, its output parsed, any question about a collection was
    answered Yes, and the process is yt-dlp with the command line of the
    widgets; the window then shows only the heading, with the button
    greyed out. *)
Theorem download_starts_only_when_cleared (parseUrl : QString -> QUrl)
    (fromJson : QString -> QJson.Document) (world : World) (s s' : State) :
  run (startDownload parseUrl fromJson world) s = Some s' ->
  spawned (trace s') <> spawned (trace s) ->
  probed parseUrl world (win s) = true /\
  exitCode (probe world (win s)) = 0%Z /\
  QJson.isNull (fromJson (standardOutput (probe world (win s)))) = false /\
  (forall question,
     multiItemQuestion (metadata fromJson world (win s)) = Some question ->
     answer world "Multiple Videos Detected" question = Yes) /\
  spawned (trace s')
  = (spawned (trace s) ++ [mkProcess "yt-dlp" (windowArgs (win s))])%list /\
  win s' = downloading (windowArgs (win s)) (win s).
Proof.
  unfold run. rewrite startDownload_paths. unfold startDownloadPaths, probed.
  cbv zeta.
  destruct (missingInput (win s)) eqn:M.
  { intros [= <-]. cbn [trace]. rewrite spawned_app, app_nil_r. congruence. }
  destruct (schemeDeclined parseUrl world (win s)) eqn:D.
  { intros [= <-]. cbn [trace]. rewrite spawned_app, app_nil_r. congruence. }
  destruct (exitCode (probe world (win s)) =? 0)%Z eqn:X; cbn [negb].
  2:{ intros [= <-]. cbn [trace].
      rewrite spawned_app, spawned_probeTrace, app_nil_r. congruence. }
  apply Z.eqb_eq in X.
  destruct (QJson.isNull (fromJson (standardOutput (probe world (win s))))) eqn:N.
  { intros [= <-]. cbn [trace].
    rewrite spawned_app, spawned_probeTrace, app_nil_r. congruence. }
  destruct (multiItemQuestion (metadata fromJson world (win s))) as [q|] eqn:Q.
  - destruct (answer world "Multiple Videos Detected" q) eqn:A; cbn [isNo];
      intros [= <-]; cbn [win trace];
      rewrite !spawned_app, spawned_probeTrace; cbn [spawned flat_map app];
      rewrite !app_nil_r; [|congruence].
    intros _. repeat split; try assumption. now intros question [= <-].
  - intros [= <-]. cbn [win trace].
    rewrite !spawned_app, spawned_probeTrace. cbn [spawned flat_map app].
    rewrite !app_nil_r. intros _. repeat split; try assumption. discriminate.
Qed.

Lemma download_starts_only_when_cleared_witness :
  run (startDownload httpsUrl playlistJson agreeingUser) (mkState sampleWindow [])
  = Some sampleDownload /\
  spawned (trace sampleDownload) <> spawned [] /\
  probed httpsUrl agreeingUser sampleWindow = true /\
  exitCode (probe agreeingUser sampleWindow) = 0%Z /\
  spawned (trace sampleDownload) = [mkProcess "yt-dlp" (windowArgs sampleWindow)] /\
  win sampleDownload = downloading (windowArgs sampleWindow) sampleWindow.
Proof.
  assert (R : run (startDownload httpsUrl playlistJson agreeingUser)
                (mkState sampleWindow []) = Some sampleDownload) by reflexivity.
  assert (G : spawned (trace sampleDownload) <> spawned []) by discriminate.
  destruct (download_starts_only_when_cleared httpsUrl playlistJson agreeingUser
              (mkState sampleWindow []) sampleDownload R G)
    as (P & X & _ & _ & S & W).
  repeat split; assumption.
Defined.

(** ** What every reachable state keeps *)

Lemma inRange_cases (items : list QString) (index : Z) :
  inRange items index = true ->
  (0 <= index < Z.of_nat (List.length items))%Z.
Proof.
  unfold inRange. rewrite andb_true_iff, Z.leb_le, Z.ltb_lt. tauto.
Qed.

Lemma formatArgs_inRange (videoIndex audioIndex : Z) :
  inRange videoQualityItems videoIndex = true ->
  inRange audioQualityItems audioIndex = true ->
  In (formatArgs videoIndex audioIndex) formatBlocks.
Proof.
  intros V A. apply inRange_cases in V. apply inRange_cases in A. cbn in V, A.
  assert (Hv : (videoIndex = 0 \/ videoIndex = 1 \/ videoIndex = 2 \/ videoIndex = 3
                \/ videoIndex = 4)%Z) by lia.
  assert (Ha : (audioIndex = 0 \/ audioIndex = 1 \/ audioIndex = 2)%Z) by lia.
  destruct Hv as [-> | [-> | [-> | [-> | ->]]]]; try (vm_compute; tauto).
  destruct Ha as [-> | [-> | ->]]; vm_compute; tauto.
Qed.

Lemma subtitleArgs_inRange (subIndex : Z) :
  inRange subtitleLangItems subIndex = true ->
  In (subtitleArgs subIndex) subtitleBlocks.
Proof.
  intros S. apply inRange_cases in S. cbn in S.
  assert (H : (subIndex = 0 \/ subIndex = 1 \/ subIndex = 2 \/ subIndex = 3
               \/ subIndex = 4 \/ subIndex = 5 \/ subIndex = 6 \/ subIndex = 7
               \/ subIndex = 8 \/ subIndex = 9 \/ subIndex = 10)%Z) by lia.
  repeat (destruct H as [->|H]; [vm_compute; tauto|]). subst. vm_compute. tauto.
Qed.

Lemma wellFormed_windowArgs (w : Window) :
  indicesInRange w -> wellFormed (mkProcess "yt-dlp" (windowArgs w)).
Proof.
  intros (V & A & S). split; [reflexivity|].
  exists (savePathEdit w),
         (formatArgs (videoQualityCombo w) (audioQualityCombo w)),
         (subtitleArgs (subtitleLangCombo w)), (sponsorBlockCheck w), (urlEdit w).
  split; [now apply formatArgs_inRange|]. split; [now apply subtitleArgs_inRange|].
  cbn [arguments]. unfold windowArgs, downloadArgs. now rewrite arg_outputTemplate.
Qed.

Lemma windowArgs_last (w : Window) : last (windowArgs w) "" = urlEdit w.
Proof.
  unfold windowArgs. rewrite downloadArgs_options. apply last_last.
Qed.

Lemma append_headed (h t : QString) (rest : list QString) :
  h <> "" -> QTextEdit.append t (h :: rest) = h :: (rest ++ [t])%list.
Proof.
  intros H. unfold QTextEdit.append, QTextEdit.isEmpty.
  destruct rest; [|reflexivity]. destruct h; [congruence | reflexivity].
Qed.

Lemma replaceLastLine_headed (h t : QString) (rest : list QString) :
  rest <> [] ->
  QTextEdit.replaceLastLine t (h :: rest) = h :: (removelast rest ++ [t])%list.
Proof.
  intros H. unfold QTextEdit.replaceLastLine. destruct rest; [congruence|].
  reflexivity.
Qed.

Lemma length_removelast_snoc (A : Type) (l : list A) (x : A) :
  l <> [] -> List.length (removelast l ++ [x]) = List.length l.
Proof.
  intros H. destruct (exists_last H) as (l' & y & ->).
  rewrite removelast_last, !length_app. reflexivity.
Qed.

(** Under a heading that is not empty, the lines of a chunk leave the
    heading alone and never make the log shorter. *)
Lemma renderSticky_headed (h : QString) (ls : list Classified) :
  h <> "" ->
  forall (flag : bool) (rest : list QString),
    (flag = true -> rest <> []) ->
    exists rest',
      snd (renderSticky flag (h :: rest) ls) = h :: rest' /\
      (fst (renderSticky flag (h :: rest) ls) = true -> rest' <> []) /\
      List.length rest <= List.length rest' /\
      (flag = true -> fst (renderSticky flag (h :: rest) ls) = true).
Proof.
  intros H. induction ls as [|[p|t] ls IH]; intros flag rest F; cbn [renderSticky].
  - exists rest. repeat split; auto.
  - destruct flag.
    + rewrite replaceLastLine_headed by auto.
      destruct (IH true (removelast rest ++ [("Progress: " ++ p)%string])%list)
        as (rest' & E & N & L & T).
      { intros _ C. now apply app_eq_nil in C as [_ C]. }
      exists rest'. split; [exact E|]. split; [exact N|].
      split; [|intros _; now apply T].
      rewrite length_removelast_snoc in L by auto. exact L.
    + rewrite append_headed by exact H.
      destruct (IH true (rest ++ [("Progress: " ++ p)%string])%list)
        as (rest' & E & N & L & T).
      { intros _ C. now apply app_eq_nil in C as [_ C]. }
      exists rest'. split; [exact E|]. split; [exact N|].
      split; [|discriminate]. rewrite length_app in L. simpl in L. lia.
  - rewrite append_headed by exact H.
    destruct (IH flag (rest ++ [t])%list) as (rest' & E & N & L & T).
    { intros _ C. now apply app_eq_nil in C as [_ C]. }
    exists rest'. split; [exact E|]. split; [exact N|].
    split; [|exact T]. rewrite length_app in L. simpl in L. lia.
Qed.

Lemma heading_not_empty (url : QString) : "Downloading URL: " ++ url <> "".
Proof. discriminate. Qed.

Lemma rendered_headed (ls : list Classified) (w : Window) :
  headed w -> headed (rendered ls w).
Proof.
  intros (p & rest & P & E & F).
  destruct (renderSticky_headed _ ls (heading_not_empty (last (arguments p) ""))
              (hasProgressLine w) rest F) as (rest' & E' & N & _ & _).
  exists p, rest'. unfold rendered, setHasProgressLine, setProgressOutput. cbv zeta.
  cbn [process progressOutput hasProgressLine]. rewrite E.
  split; [exact P|]. split; [exact E' | exact N].
Qed.

Lemma rendered_frame (ls : list Classified) (w : Window) :
  downloadButton (rendered ls w) = downloadButton w /\
  process (rendered ls w) = process w /\
  inputs (rendered ls w) = inputs w.
Proof. repeat split. Qed.

Section Soundness.

Variable parseUrl : QString -> QUrl.
Variable fromJson : QString -> QJson.Document.

(** The three ways a click can end. *)
Lemma startDownload_cases (world : World) (s : State) :
  exists s',
    run (startDownload parseUrl fromJson world) s = Some s' /\
    ((win s' = win s /\ spawned (trace s') = spawned (trace s)) \/
     (exists message,
        win s' = failed message (win s) /\ spawned (trace s') = spawned (trace s)) \/
     (win s' = downloading (windowArgs (win s)) (win s) /\
      spawned (trace s')
      = (spawned (trace s) ++ [mkProcess "yt-dlp" (windowArgs (win s))])%list)).
Proof.
  unfold run. rewrite startDownload_paths. unfold startDownloadPaths. cbv zeta.
  repeat match goal with
         | |- context [if ?b then _ else _] => destruct b
         | |- context [match multiItemQuestion ?j with _ => _ end] =>
             destruct (multiItemQuestion j)
         end;
    eexists; (split; [reflexivity|]); cbn [win trace];
    rewrite ?spawned_app, ?spawned_probeTrace; cbn [spawned flat_map app];
    rewrite ?app_nil_r; eauto 6.
Qed.

Lemma sound_new (defaultPath : QString) : sound (mkState (newWindow defaultPath) []).
Proof.
  repeat split; try reflexivity.
  - left. now split.
  - intros N. now elim N.
  - constructor.
Qed.

Lemma supervised_enabled (w : Window) :
  supervised w -> enabled (downloadButton w) = true -> process w = None.
Proof.
  intros [[_ P]|[B _]] E; [exact P|]. rewrite B in E. discriminate.
Qed.

Lemma sound_step (s s' : State) (e : Event) :
  step parseUrl fromJson s e s' -> sound s -> sound s'.
Proof.
  intros [s0 s1 e0 D R] (Su & (V & A & Sb) & Hd & Wf).
  destruct e0; cbn [handle deliverable] in *.
  1-5: injection R as <-; (split; [exact Su|]); (split; [now repeat split|]);
       (split; [exact Hd | exact Wf]).
  - unfold run, chooseFolder, when in R.
    destruct (negb (QStr.isEmpty folder)); injection R as <-;
      (split; [exact Su|]); (split; [now repeat split|]);
      (split; [exact Hd | exact Wf]).
  - destruct (startDownload_cases world s0)
      as (s2 & R' & [[W T]|[(m & W & T)|[W T]]]);
      rewrite R' in R; injection R as <-; unfold sound; rewrite W, T.
    + repeat split; assumption.
    + pose proof (supervised_enabled _ Su D) as P.
      split; [left; now split|]. split; [now repeat split|].
      split; [|exact Wf]. intros N. now elim N.
    + split; [right; split; [reflexivity | now eexists]|].
      split; [now repeat split|]. split.
      * intros _. eexists. exists []. split; [reflexivity|].
        cbn [arguments]. rewrite windowArgs_last. split; [reflexivity | discriminate].
      * apply Forall_app. split; [exact Wf|]. constructor; [|constructor].
        apply wellFormed_windowArgs. now repeat split.
  - rewrite processError_run in R.
    destruct (process (win s0)); [|discriminate]. injection R as <-.
    split; [left; now split|]. split; [now repeat split|].
    split; [|exact Wf]. intros N. now elim N.
  - rewrite readProcessOutput_run in R.
    destruct (process (win s0)) as [p|] eqn:P; [|discriminate]. injection R as <-.
    unfold sound. cbn [win trace].
    destruct (rendered_frame (classifiedLines output) (win s0)) as (B & P' & _).
    split.
    { unfold supervised. rewrite B, P', P. unfold supervised in Su.
      now rewrite P in Su. }
    split; [now repeat split|]. split; [|exact Wf].
    intros _. apply rendered_headed. apply Hd. congruence.
  - rewrite processFinished_run in R.
    destruct (process (win s0)); [|discriminate]. injection R as <-.
    split; [left; now split|]. split; [now repeat split|].
    split; [|exact Wf]. intros N. now elim N.
Qed.

Lemma reachable_sound (s : State) : reachable parseUrl fromJson s -> sound s.
Proof.
  induction 1 as [defaultPath | s s' e _ IH St].
  - apply sound_new.
  - exact (sound_step s s' e St IH).
Qed.

End Soundness.

(** X6. In every state the window reaches, the button tells whether a
    process is supervised: it is enabled with the label Download and the
    process pointer is null, or it is disabled with the label
    Downloading... and the pointer holds a yt-dlp process. *)
Theorem button_tells_supervision (parseUrl : QString -> QUrl)
    (fromJson : QString -> QJson.Document) (s : State) :
  reachable parseUrl fromJson s -> supervised (win s).
Proof.
  intros R. exact (proj1 (reachable_sound parseUrl fromJson s R)).
Qed.

Lemma button_tells_supervision_witness :
  reachable httpsUrl playlistJson sampleDownload /\
  supervised (win sampleDownload).
Proof.
  split; [exact sampleDownload_reachable|].
  exact (button_tells_supervision httpsUrl playlistJson sampleDownload
           sampleDownload_reachable).
Defined.

(** X7. Every command line the window has ever started is yt-dlp with the
    output template, one format block (a height cap of 2160, 1080, 720 or
    480 merged to mp4, or mp3 extraction at 320, 256 or 128), either no
    subtitle block or one with a language code of the list, the
    sponsor-segment block or none, and the URL last: no started command has
    an empty format expression, bitrate or language. *)
Theorem started_commands_are_well_formed (parseUrl : QString -> QUrl)
    (fromJson : QString -> QJson.Document) (s : State) :
  reachable parseUrl fromJson s ->
  indicesInRange (win s) /\
  forall p, In p (spawned (trace s)) -> wellFormed p.
Proof.
  intros R. destruct (reachable_sound parseUrl fromJson s R) as (_ & I & _ & W).
  split; [exact I|]. now apply Forall_forall.
Qed.

Lemma started_commands_are_well_formed_witness :
  reachable httpsUrl playlistJson sampleDownload /\
  spawned (trace sampleDownload) = [mkProcess "yt-dlp" (windowArgs sampleWindow)] /\
  wellFormed (mkProcess "yt-dlp" (windowArgs sampleWindow)).
Proof.
  split; [exact sampleDownload_reachable|]. split; [reflexivity|].
  apply (started_commands_are_well_formed httpsUrl playlistJson sampleDownload
           sampleDownload_reachable).
  left. reflexivity.
Defined.

(** X8. While a process is supervised the log begins with the heading
    "Downloading URL: " followed by the URL handed to that process, and
    once a progress line has been shown the log holds more than the
    heading: output never overwrites the heading. *)
Theorem heading_is_kept (parseUrl : QString -> QUrl)
    (fromJson : QString -> QJson.Document) (s : State) :
  reachable parseUrl fromJson s ->
  process (win s) <> None ->
  headed (win s).
Proof.
  intros R. exact (proj1 (proj2 (proj2 (reachable_sound parseUrl fromJson s R)))).
Qed.

Lemma heading_is_kept_witness :
  let s := mkState (rendered (classifiedLines sampleOutput) (win sampleDownload))
             (trace sampleDownload) in
  reachable httpsUrl playlistJson s /\
  process (win s) <> None /\
  headed (win s) /\
  hd "" (progressOutput (win s)) = "Downloading URL: https://youtu.be/v".
Proof.
  cbv zeta.
  assert (R : reachable httpsUrl playlistJson
                (mkState (rendered (classifiedLines sampleOutput) (win sampleDownload))
                   (trace sampleDownload))).
  { apply (reachable_step _ _ sampleDownload _ (ReadyReadStandardOutput sampleOutput)).
    - exact sampleDownload_reachable.
    - constructor; [reflexivity|]. cbn [handle]. now rewrite readProcessOutput_run. }
  assert (P : process (win (mkState (rendered (classifiedLines sampleOutput)
                                       (win sampleDownload))
                              (trace sampleDownload))) <> None) by discriminate.
  split; [exact R|]. split; [exact P|]. split; [|reflexivity].
  exact (heading_is_kept httpsUrl playlistJson _ R P).
Defined.

(** X9. Output never makes the log shorter: in a state the window has
    reached, [readProcessOutput] leaves at least as many lines as it
    found. *)
Theorem output_never_shortens_log (parseUrl : QString -> QUrl)
    (fromJson : QString -> QJson.Document) (s s' : State) (output : QString) :
  reachable parseUrl fromJson s ->
  step parseUrl fromJson s (ReadyReadStandardOutput output) s' ->
  List.length (progressOutput (win s)) <= List.length (progressOutput (win s')).
Proof.
  intros R Step. inversion Step as [s0 s1 e0 _ St]; subst s0 s1 e0. clear Step.
  cbn [handle] in St. rewrite readProcessOutput_run in St.
  destruct (process (win s)) as [p|] eqn:P; [|discriminate]. injection St as <-.
  destruct (reachable_sound parseUrl fromJson s R) as (_ & _ & Hd & _).
  destruct (Hd ltac:(congruence)) as (p' & rest & _ & E & F).
  destruct (renderSticky_headed _ (classifiedLines output)
              (heading_not_empty (last (arguments p') ""))
              (hasProgressLine (win s)) rest F) as (rest' & E' & _ & L & _).
  cbn [win]. unfold rendered, setHasProgressLine, setProgressOutput. cbv zeta.
  cbn [progressOutput].
  assert (G : snd (renderSticky (hasProgressLine (win s)) (progressOutput (win s))
                     (classifiedLines output))
              = ("Downloading URL: " ++ last (arguments p') "") :: rest')
    by (rewrite E; exact E').
  rewrite G, E. simpl. lia.
Qed.

Lemma output_never_shortens_log_witness :
  let s' := mkState (rendered (classifiedLines sampleOutput) (win sampleDownload))
              (trace sampleDownload) in
  reachable httpsUrl playlistJson sampleDownload /\
  step httpsUrl playlistJson sampleDownload (ReadyReadStandardOutput sampleOutput) s' /\
  List.length (progressOutput (win sampleDownload))
  <= List.length (progressOutput (win s')).
Proof.
  cbv zeta.
  assert (St : step httpsUrl playlistJson sampleDownload
                 (ReadyReadStandardOutput sampleOutput)
                 (mkState (rendered (classifiedLines sampleOutput) (win sampleDownload))
                    (trace sampleDownload))).
  { constructor; [reflexivity|]. cbn [handle]. now rewrite readProcessOutput_run. }
  split; [exact sampleDownload_reachable|]. split; [exact St|].
  exact (output_never_shortens_log httpsUrl playlistJson _ _ _
           sampleDownload_reachable St).
Defined.

(** ** What the slots leave alone *)

Lemma step_inputs (parseUrl : QString -> QUrl) (fromJson : QString -> QJson.Document)
    (s s' : State) (e : Event) :
  step parseUrl fromJson s e s' -> isEdit e = false ->
  inputs (win s') = inputs (win s).
Proof.
  intros [s0 s1 e0 D R] N. destruct e0; try discriminate N; cbn [handle] in R.
  - destruct (startDownload_cases parseUrl fromJson world s0)
      as (s2 & R' & [[W _]|[(m & W & _)|[W _]]]);
      rewrite R' in R; injection R as <-; now rewrite W.
  - rewrite processError_run in R.
    destruct (process (win s0)); [|discriminate]. now injection R as <-.
  - rewrite readProcessOutput_run in R.
    destruct (process (win s0)); [|discriminate]. now injection R as <-.
  - rewrite processFinished_run in R.
    destruct (process (win s0)); [|discriminate]. now injection R as <-.
Qed.

(** X10. The slots for the button and for the signals of the process never
    change what the user has entered: the URL, the three choices, the
    folder and the check box are after [startDownload], [processError],
    [readProcessOutput] and [processFinished] what they were before. *)
Theorem slots_keep_the_inputs (parseUrl : QString -> QUrl)
    (fromJson : QString -> QJson.Document) (s s' : State) (e : Event) :
  step parseUrl fromJson s e s' ->
  isEdit e = false ->
  inputs (win s') = inputs (win s).
Proof. apply step_inputs. Qed.

Lemma slots_keep_the_inputs_witness :
  step httpsUrl playlistJson (mkState sampleWindow [])
    (DownloadClicked agreeingUser) sampleDownload /\
  isEdit (DownloadClicked agreeingUser) = false /\
  inputs (win sampleDownload) = inputs sampleWindow.
Proof.
  split; [exact sampleDownload_step|]. split; [reflexivity|].
  exact (slots_keep_the_inputs httpsUrl playlistJson (mkState sampleWindow [])
           sampleDownload (DownloadClicked agreeingUser) sampleDownload_step eq_refl).
Defined.

(** X11. Once a folder is set no event clears it: a cancelled folder dialog
    (an empty choice) keeps the folder, and no slot writes an empty one. *)
Theorem save_folder_is_never_cleared (parseUrl : QString -> QUrl)
    (fromJson : QString -> QJson.Document) (s s' : State) (e : Event) :
  step parseUrl fromJson s e s' ->
  savePathEdit (win s) <> "" ->
  savePathEdit (win s') <> "".
Proof.
  intros St N. destruct (isEdit e) eqn:Ed.
  - destruct St as [s0 s1 e0 D R].
    destruct e0; try discriminate Ed; cbn [handle] in R;
      try (injection R as <-; exact N).
    unfold run, chooseFolder, when in R.
    destruct folder as [|c folder]; injection R as <-; [exact N | discriminate].
  - pose proof (step_inputs parseUrl fromJson s s' e St Ed) as I.
    unfold inputs in I. injection I as _ _ _ _ I _. now rewrite I.
Qed.

Lemma save_folder_is_never_cleared_witness :
  step httpsUrl playlistJson (mkState sampleWindow []) (FolderChosen "")
    (mkState sampleWindow []) /\
  savePathEdit sampleWindow <> "" /\
  savePathEdit (win (mkState sampleWindow [])) <> "".
Proof.
  assert (St : step httpsUrl playlistJson (mkState sampleWindow []) (FolderChosen "")
                 (mkState sampleWindow [])) by (constructor; reflexivity).
  assert (N : savePathEdit sampleWindow <> "") by discriminate.
  split; [exact St|]. split; [exact N|].
  exact (save_folder_is_never_cleared httpsUrl playlistJson _ _ _ St N).
Defined.

(** X12. A process signal that arrives while the process pointer is null is
    not handled: after [processError] or [processFinished] has run, each of
    [processError], [readProcessOutput] and [processFinished] dereferences
    the null pointer. *)
Theorem no_signal_after_release (parseUrl : QString -> QUrl)
    (fromJson : QString -> QJson.Document) (s s' : State) (e e' : Event) :
  step parseUrl fromJson s e s' ->
  (exists errorString, e = ErrorOccurred errorString) \/ (exists code, e = Finished code) ->
  isProcessSignal e' = true ->
  process (win s') = None /\ run (handle parseUrl fromJson e') s' = None.
Proof.
  intros [s0 s1 e0 D R] Rel Sig.
  assert (P : process (win s1) = None).
  { destruct Rel as [(m & ->)|(c & ->)]; cbn [handle] in R;
      [rewrite processError_run in R | rewrite processFinished_run in R];
      (destruct (process (win s0)); [|discriminate]); now injection R as <-. }
  split; [exact P|].
  destruct e'; try discriminate Sig; cbn [handle];
    [rewrite processError_run | rewrite readProcessOutput_run
     | rewrite processFinished_run]; now rewrite P.
Qed.

Lemma no_signal_after_release_witness :
  let crashed :=
    mkState (setProcess None
               (failed "Failed to start download: Process crashed" (win sampleDownload)))
      (trace sampleDownload) in
  step httpsUrl playlistJson sampleDownload (ErrorOccurred "Process crashed") crashed /\
  isProcessSignal (Finished 9) = true /\
  process (win crashed) = None /\
  run (handle httpsUrl playlistJson (Finished 9)) crashed = None.
Proof.
  cbv zeta.
  assert (St : step httpsUrl playlistJson sampleDownload (ErrorOccurred "Process crashed")
                 (mkState (setProcess None
                             (failed "Failed to start download: Process crashed"
                                (win sampleDownload)))
                    (trace sampleDownload))).
  { constructor; [reflexivity|]. cbn [handle]. now rewrite processError_run. }
  split; [exact St|]. split; [reflexivity|].
  exact (no_signal_after_release httpsUrl playlistJson _ _ _ (Finished 9) St
           (or_introl (ex_intro _ "Process crashed" eq_refl)) eq_refl).
Defined.

(** ** Lines shown in the log of a running download *)

Lemma append_to_log (t : QString) (log : QTextEdit.Document) :
  QTextEdit.isEmpty log = false ->
  QTextEdit.append t log = (log ++ [t])%list /\
  QTextEdit.isEmpty (log ++ [t])%list = false.
Proof.
  intros H. unfold QTextEdit.append. rewrite H. split; [reflexivity|].
  destruct log as [|b [|b' log]]; [discriminate | reflexivity | reflexivity].
Qed.

Lemma progress_line_shown (p : QString) (base : QTextEdit.Document) :
  QTextEdit.isEmpty (base ++ [("Progress: " ++ p)%string])%list = false.
Proof. destruct base as [|b [|b' base]]; reflexivity. Qed.

Lemma renderSticky_plains (flag : bool) (ts : list QString) :
  forall log : QTextEdit.Document,
    QTextEdit.isEmpty log = false ->
    renderSticky flag log (map PlainLine ts) = (flag, (log ++ ts)%list).
Proof.
  induction ts as [|t ts IH]; intros log H; cbn [map renderSticky].
  - now rewrite app_nil_r.
  - destruct (append_to_log t log H) as [-> H'].
    rewrite (IH _ H'). now rewrite <- app_assoc.
Qed.

Lemma renderSticky_progresses (ps : list QString) (final : QString) :
  forall (flag : bool) (log : QTextEdit.Document),
    QTextEdit.isEmpty log = false ->
    renderSticky flag log (map ProgressUpdate (ps ++ [final])%list)
    = (true,
       ((if flag then removelast log else log)
        ++ [("Progress: " ++ final)%string])%list).
Proof.
  induction ps as [|p ps IH]; intros flag log H; cbn [app map renderSticky].
  - destruct flag; [reflexivity|]. now destruct (append_to_log ("Progress: " ++ final) log H) as [-> _].
  - assert (E : (if flag
                 then QTextEdit.replaceLastLine ("Progress: " ++ p) log
                 else QTextEdit.append ("Progress: " ++ p) log)
                = ((if flag then removelast log else log)
                   ++ [("Progress: " ++ p)%string])%list).
    { destruct flag; [reflexivity|].
      now destruct (append_to_log ("Progress: " ++ p) log H) as [-> _]. }
    rewrite E, (IH true _ (progress_line_shown p _)).
    now rewrite removelast_last.
Qed.

Lemma headed_not_empty (w : Window) :
  headed w -> QTextEdit.isEmpty (progressOutput w) = false.
Proof.
  intros (p & rest & _ & E & _). rewrite E. now destruct rest.
Qed.

Section Shown.

Variable parseUrl : QString -> QUrl.
Variable fromJson : QString -> QJson.Document.
Variable s : State.
Hypothesis Reached : reachable parseUrl fromJson s.
Hypothesis Running : process (win s) <> None.

Lemma running_log_not_empty : QTextEdit.isEmpty (progressOutput (win s)) = false.
Proof.
  apply headed_not_empty.
  exact (proj1 (proj2 (proj2 (reachable_sound parseUrl fromJson s Reached))) Running).
Qed.

Lemma output_step (output : QString) :
  step parseUrl fromJson s (ReadyReadStandardOutput output)
    (mkState (rendered (classifiedLines output) (win s)) (trace s)).
Proof.
  constructor; [reflexivity|]. cbn [handle]. rewrite readProcessOutput_run.
  destruct (process (win s)); [reflexivity | now elim Running].
Qed.

End Shown.

(** X13. A chunk of output whose lines are all progress lines adds at most
    one line to the log of a running download: the updates share one line,
    which shows the last percentage; it replaces the last line of the log
    when [hasProgressLine] is set and is a new line otherwise. *)
Theorem progress_updates_share_one_line (parseUrl : QString -> QUrl)
    (fromJson : QString -> QJson.Document) (s : State) (output : QString)
    (earlier : list QString) (final : QString) :
  reachable parseUrl fromJson s ->
  process (win s) <> None ->
  classifiedLines output = map ProgressUpdate (earlier ++ [final])%list ->
  exists s',
    step parseUrl fromJson s (ReadyReadStandardOutput output) s' /\
    progressOutput (win s')
    = ((if hasProgressLine (win s) then removelast (progressOutput (win s))
        else progressOutput (win s))
       ++ [("Progress: " ++ final)%string])%list /\
    hasProgressLine (win s') = true.
Proof.
  intros R P C. eexists. split; [now apply output_step|].
  cbn [win]. unfold rendered, setHasProgressLine, setProgressOutput. cbv zeta.
  cbn [progressOutput hasProgressLine].
  rewrite C, renderSticky_progresses by (now apply (running_log_not_empty parseUrl fromJson)).
  split; reflexivity.
Qed.

Lemma progress_updates_share_one_line_witness :
  reachable httpsUrl playlistJson sampleDownload /\
  process (win sampleDownload) <> None /\
  classifiedLines (chunk ["[download]   1.5% of 5.00MiB"; "[download]  42.0% of 5.00MiB"])
  = map ProgressUpdate (["1.5"] ++ ["42.0"])%list /\
  exists s',
    step httpsUrl playlistJson sampleDownload
      (ReadyReadStandardOutput
         (chunk ["[download]   1.5% of 5.00MiB"; "[download]  42.0% of 5.00MiB"])) s' /\
    progressOutput (win s')
    = ["Downloading URL: https://youtu.be/v"; "Progress: 42.0"] /\
    hasProgressLine (win s') = true.
Proof.
  assert (P : process (win sampleDownload) <> None) by discriminate.
  split; [exact sampleDownload_reachable|]. split; [exact P|].
  split; [reflexivity|].
  exact (progress_updates_share_one_line httpsUrl playlistJson sampleDownload
           (chunk ["[download]   1.5% of 5.00MiB"; "[download]  42.0% of 5.00MiB"])
           ["1.5"] "42.0" sampleDownload_reachable P eq_refl).
Defined.

(** X14. Lines that are not progress lines are each appended to the log of
    a running download, in order, and leave [hasProgressLine] as it was. *)
Theorem plain_lines_are_appended (parseUrl : QString -> QUrl)
    (fromJson : QString -> QJson.Document) (s : State) (output : QString)
    (ts : list QString) :
  reachable parseUrl fromJson s ->
  process (win s) <> None ->
  classifiedLines output = map PlainLine ts ->
  exists s',
    step parseUrl fromJson s (ReadyReadStandardOutput output) s' /\
    progressOutput (win s') = (progressOutput (win s) ++ ts)%list /\
    hasProgressLine (win s') = hasProgressLine (win s).
Proof.
  intros R P C. eexists. split; [now apply output_step|].
  cbn [win]. unfold rendered, setHasProgressLine, setProgressOutput. cbv zeta.
  cbn [progressOutput hasProgressLine].
  rewrite C, renderSticky_plains by (now apply (running_log_not_empty parseUrl fromJson)).
  split; reflexivity.
Qed.

Lemma plain_lines_are_appended_witness :
  reachable httpsUrl playlistJson sampleDownload /\
  process (win sampleDownload) <> None /\
  classifiedLines (chunk ["[youtube] v: Downloading webpage"; "[download] 100% of 5.00MiB"])
  = map PlainLine ["[youtube] v: Downloading webpage"; "[download] 100% of 5.00MiB"] /\
  exists s',
    step httpsUrl playlistJson sampleDownload
      (ReadyReadStandardOutput
         (chunk ["[youtube] v: Downloading webpage"; "[download] 100% of 5.00MiB"])) s' /\
    progressOutput (win s')
    = ["Downloading URL: https://youtu.be/v"; "[youtube] v: Downloading webpage";
       "[download] 100% of 5.00MiB"] /\
    hasProgressLine (win s') = false.
Proof.
  assert (P : process (win sampleDownload) <> None) by discriminate.
  split; [exact sampleDownload_reachable|]. split; [exact P|].
  split; [reflexivity|].
  exact (plain_lines_are_appended httpsUrl playlistJson sampleDownload
           (chunk ["[youtube] v: Downloading webpage"; "[download] 100% of 5.00MiB"])
           ["[youtube] v: Downloading webpage"; "[download] 100% of 5.00MiB"]
           sampleDownload_reachable P eq_refl).
Defined.

Lemma fields_line (l : QString) :
  noLineFeed l = true -> QStr.fields "010" (l ++ newline) = [l; ""].
Proof.
  induction l as [|c l IH]; intros H; [reflexivity|].
  cbn [noLineFeed] in H. apply andb_true_iff in H as [Hc Hl].
  apply negb_true_iff in Hc. cbn [String.append QStr.fields].
  now rewrite Hc, (IH Hl).
Qed.

Lemma dropLeadingSpaces_blank (l : QString) :
  allSpaces l = true -> QStr.dropLeadingSpaces l = "".
Proof.
  induction l as [|c l IH]; intros H; [reflexivity|].
  cbn [allSpaces] in H. apply andb_true_iff in H as [Hc Hl].
  cbn [QStr.dropLeadingSpaces]. now rewrite Hc, (IH Hl).
Qed.

(** A chunk of one line that is not empty is classified as that line,
    trimmed. *)
Lemma classifiedLines_line (l : QString) :
  l <> "" -> noLineFeed l = true ->
  classifiedLines (chunk [l]) = [classify (QStr.trimmed l)].
Proof.
  intros N H. unfold classifiedLines, chunk, QStr.splitSkipEmpty.
  cbn [map String.concat]. rewrite (fields_line l H).
  destruct l; [congruence | reflexivity].
Qed.

(** X15. A line of output that holds only blanks is not skipped: it is
    trimmed to nothing and appended to the log of a running download as an
    empty line.  (Only lines that are empty before trimming are
    skipped.) *)
Theorem blank_line_is_shown_empty (parseUrl : QString -> QUrl)
    (fromJson : QString -> QJson.Document) (s : State) (l : QString) :
  reachable parseUrl fromJson s ->
  process (win s) <> None ->
  l <> "" -> allSpaces l = true -> noLineFeed l = true ->
  exists s',
    step parseUrl fromJson s (ReadyReadStandardOutput (chunk [l])) s' /\
    progressOutput (win s') = (progressOutput (win s) ++ [""])%list.
Proof.
  intros R P N B H. eexists. split; [now apply output_step|].
  cbn [win]. unfold rendered, setHasProgressLine, setProgressOutput. cbv zeta.
  cbn [progressOutput]. rewrite (classifiedLines_line l N H).
  unfold QStr.trimmed. rewrite (dropLeadingSpaces_blank l B).
  change [classify (QStr.dropTrailingSpaces "")] with (map PlainLine [""]).
  now rewrite renderSticky_plains
    by (now apply (running_log_not_empty parseUrl fromJson)).
Qed.

Lemma blank_line_is_shown_empty_witness :
  reachable httpsUrl playlistJson sampleDownload /\
  process (win sampleDownload) <> None /\
  "   " <> "" /\ allSpaces "   " = true /\ noLineFeed "   " = true /\
  exists s',
    step httpsUrl playlistJson sampleDownload
      (ReadyReadStandardOutput (chunk ["   "])) s' /\
    progressOutput (win s') = ["Downloading URL: https://youtu.be/v"; ""].
Proof.
  assert (P : process (win sampleDownload) <> None) by discriminate.
  assert (N : "   " <> "") by discriminate.
  split; [exact sampleDownload_reachable|]. split; [exact P|]. split; [exact N|].
  split; [reflexivity|]. split; [reflexivity|].
  exact (blank_line_is_shown_empty httpsUrl playlistJson sampleDownload "   "
           sampleDownload_reachable P N eq_refl eq_refl).
Defined.

(** ** More on the command line *)

(** X16. With the first item of the subtitle box (None) no subtitle
    arguments are emitted; with each of the ten languages the arguments are
    [--write-subs --sub-langs] and the code that the item shows in
    parentheses after the language's name. *)
Theorem subtitle_code_is_the_parenthesised_one :
  (forall subIndex : Z, (subIndex <= 0)%Z -> subtitleArgs subIndex = []) /\
  (forall n : nat,
     n < 10 ->
     itemText subtitleLangItems (Z.of_nat n + 1)
     = nth n languageNames "" ++ " (" ++ nth n subtitleCodes "" ++ ")" /\
     subtitleArgs (Z.of_nat n + 1)
     = ["--write-subs"; "--sub-langs"; nth n subtitleCodes ""]).
Proof.
  split.
  - intros subIndex H. unfold subtitleArgs.
    replace (subIndex >? 0)%Z with false; [reflexivity|].
    symmetry. rewrite Z.gtb_ltb. now apply Z.ltb_ge.
  - intros n H.
    do 10 (destruct n as [|n]; [split; reflexivity|]). lia.
Qed.

Lemma lastChar_append (a b : QString) :
  b <> "" -> lastChar (a ++ b) = lastChar b.
Proof.
  intros H. induction a as [|c a IH]; [reflexivity|].
  cbn [String.append lastChar]. rewrite IH.
  destruct (a ++ b) eqn:E; [|reflexivity].
  destruct a; [simpl in E; congruence | discriminate].
Qed.

Lemma outputTemplate_ends_in_s (savePath : QString) :
  lastChar (outputTemplate savePath) = Some "s"%char.
Proof. unfold outputTemplate. now rewrite lastChar_append. Qed.

(** X17. Among the tokens put before the URL, the sponsor-segment flag is
    present exactly when the check box is checked, whatever the other
    choices and the folder are. *)
Theorem sponsor_flag_iff_checked (url savePath : QString)
    (videoIndex audioIndex subIndex : Z) (sponsorBlock : bool) :
  In "--sponsorblock-remove"
    (removelast (downloadArgs url savePath videoIndex audioIndex subIndex sponsorBlock))
  <-> sponsorBlock = true.
Proof.
  rewrite downloadArgs_options, removelast_last. split.
  - intros I. rewrite !in_app_iff in I. destruct I as [I|[I|[I|I]]].
    + exfalso. destruct I as [I|[I|[]]]; [discriminate|].
      pose proof (outputTemplate_ends_in_s savePath) as L. rewrite I in L.
      discriminate.
    + exfalso. destruct (Z.lt_ge_cases videoIndex 4) as [H|H].
      * rewrite (formatArgs_video _ _ H) in I.
        pose proof (videoFormat_values videoIndex) as V.
        remember (videoFormat videoIndex) as fmt eqn:E. clear E.
        simpl in V, I. intuition (subst; discriminate).
      * rewrite (formatArgs_audio _ _ H) in I.
        pose proof (audioQuality_values audioIndex) as V.
        remember (QStr.first _) as q eqn:E. clear E.
        simpl in V, I. intuition (subst; discriminate).
    + exfalso. unfold subtitleArgs in I. destruct (subIndex >? 0)%Z; [|exact I].
      pose proof (subtitle_lang_values subIndex) as V.
      remember (QStr.section ")" 0 0 _) as lang eqn:E. clear E.
      simpl in V, I. intuition (subst; discriminate).
    + destruct sponsorBlock; [reflexivity | destruct I].
  - intros ->. rewrite !in_app_iff. do 3 right. now left.
Qed.

(** X18. A window fresh from the constructor, once a URL is typed, downloads
    with the defaults: whatever a click on the button starts is yt-dlp asked
    for video capped at 2160 pixels merged to mp4, with no subtitle and no
    sponsor-segment arguments, written under the default folder. *)
Theorem fresh_window_downloads_4k (parseUrl : QString -> QUrl)
    (fromJson : QString -> QJson.Document) (world : World)
    (defaultPath url : QString) (s' : State) (p : Process) :
  deliver parseUrl fromJson [UrlEdited url; DownloadClicked world]
    (mkState (newWindow defaultPath) []) = Some s' ->
  In p (spawned (trace s')) ->
  p = mkProcess "yt-dlp"
        ["-o"; outputTemplate defaultPath;
         "-f"; heightCap 2160; "--merge-output-format"; "mp4"; url].
Proof.
  set (w := mkWindow url 0 0 0 defaultPath (mkButton "Download" true) false
              QTextEdit.clear None false).
  change (deliver parseUrl fromJson [UrlEdited url; DownloadClicked world]
            (mkState (newWindow defaultPath) []))
    with (match run (startDownload parseUrl fromJson world) (mkState w []) with
          | Some s2 => Some s2
          | None => None
          end).
  destruct (startDownload_cases parseUrl fromJson world (mkState w []))
    as (s2 & R & [[_ T]|[(m & _ & T)|[_ T]]]); rewrite R; intros [= <-] I;
    rewrite T in I; cbn in I; try contradiction.
  destruct I as [<-|[]]. reflexivity.
Qed.

Lemma fresh_window_downloads_4k_witness :
  let p := mkProcess "yt-dlp"
             ["-o"; "/home/me/Videos/%(title)s.%(ext)s";
              "-f"; "bestvideo[height<=2160]+bestaudio/best";
              "--merge-output-format"; "mp4"; "https://youtu.be/v"] in
  deliver httpsUrl playlistJson
    [UrlEdited "https://youtu.be/v"; DownloadClicked agreeingUser]
    (mkState (newWindow "/home/me/Videos") []) = Some sampleDownload /\
  In p (spawned (trace sampleDownload)) /\
  p = mkProcess "yt-dlp"
        ["-o"; outputTemplate "/home/me/Videos";
         "-f"; heightCap 2160; "--merge-output-format"; "mp4"; "https://youtu.be/v"].
Proof.
  cbv zeta.
  assert (D : deliver httpsUrl playlistJson
                [UrlEdited "https://youtu.be/v"; DownloadClicked agreeingUser]
                (mkState (newWindow "/home/me/Videos") []) = Some sampleDownload)
    by reflexivity.
  assert (I : In (mkProcess "yt-dlp"
                    ["-o"; "/home/me/Videos/%(title)s.%(ext)s";
                     "-f"; "bestvideo[height<=2160]+bestaudio/best";
                     "--merge-output-format"; "mp4"; "https://youtu.be/v"])
                (spawned (trace sampleDownload))) by (left; reflexivity).
  split; [exact D|]. split; [exact I|].
  exact (fresh_window_downloads_4k httpsUrl playlistJson agreeingUser
           "/home/me/Videos" "https://youtu.be/v" sampleDownload _ D I).
Defined.
